(** * MNIST digit classifier front end: preprocessing, ranking and UI state

    A shallow embedding of the two variants of [App.tsx] (the one with the
    save-once guards and the one without them), with the properties of the
    image preprocessor, of the softmax ranker and of the event handlers.

    Number model.
    - The preprocessor only performs a fixed chain of IEEE-754 binary64
      operations on bytes and stores the result in a [Float32Array]; it is
      modelled bit-exactly with Rocq's primitive binary64 floats, and the
      store rounds to binary32.
    - The ranker calls [Math.exp], which ECMAScript leaves
      implementation-approximated.  Finite JavaScript numbers are modelled
      there as the reals they denote, and every arithmetic operation rounds
      its exact result with an operator [rnd]; the laws assumed of [rnd] and
      of [Math.exp] are those of round-to-nearest binary64 (class
      [ArithLaws]).  NaN and the infinities are outside that model.

    The browser, the inference engine and the network are parameters
    ([Platform], [Session], [Env]). *)

From Stdlib Require Import Ascii String DecimalString Strings.Byte.
From Stdlib Require Import Reals Lra Lia ZArith Bool Floats Uint63.
From Stdlib Require Import List Sorted Permutation.
Import ListNotations.

(** ** The JavaScript platform *)

Module JS.

(** Exceptions: what a [throw], a rejected promise or a failing built-in
    raises. *)
Inductive exn : Type :=
| TypeError (msg : string)
| Error (msg : string)
| Rejected (msg : string).

(** A computation returns a value or throws. *)
Inductive result (A : Type) : Type :=
| Ok (a : A)
| Throw (e : exn).

Arguments Ok {A} a.
Arguments Throw {A} e.

Definition bind {A B : Type} (c : result A) (k : A -> result B) : result B :=
  match c with
  | Ok a => k a
  | Throw e => Throw e
  end.

Notation "x <- c ;; k" := (bind c (fun x => k))
  (at level 61, c at next level, right associativity).

(** *** Binary64 numbers and typed arrays (preprocessor) *)

(** The number a [Uint8ClampedArray] element reads as. *)
Definition byte_val (b : byte) : Z := Z.of_N (Byte.to_N b).

Definition Z2F (z : Z) : float := PrimFloat.of_uint63 (Uint63.of_Z z).

Definition of_byte (b : byte) : float := Z2F (byte_val b).

(** [data[i]] on a [Uint8ClampedArray]: out of range it is [undefined], which
    arithmetic converts to NaN. *)
Definition read (data : list byte) (i : nat) : float :=
  match nth_error data i with
  | Some b => of_byte b
  | None => nan
  end.

(** [Math.fround]: the binary32 value nearest to a binary64 one, which is
    what a store into a [Float32Array] keeps. *)
Definition fround (x : float) : float :=
  match Prim2SF x with
  | S754_finite s m e => SF2Prim (binary_round 24 128 s m e)
  | _ => x
  end.

(** [new Float32Array(n)]: [n] zeros. *)
Definition Float32Array (n : nat) : list float := repeat 0%float n.

(** [data[k] = v] on a [Float32Array]: rounds to binary32; a store past the
    end is ignored. *)
Fixpoint store (data : list float) (k : nat) (v : float) : list float :=
  match data, k with
  | [], _ => []
  | _ :: t, O => fround v :: t
  | h :: t, S k' => h :: store t k' v
  end.

(** *** Canvas *)

(** A canvas bitmap: [4 * width * height] bytes, RGBA, row-major. *)
Record Canvas : Type := {
  width : nat;
  height : nat;
  pixels : list byte
}.

(** The browser services [preprocessCanvas] calls.
    [getContext2d]: whether [getContext('2d')] on a fresh canvas is non-null.
    [render c]: the bytes [getImageData(0, 0, 28, 28).data] holds after the
    28x28 canvas was filled white and [c] was drawn onto it scaled. *)
Record Platform : Type := {
  getContext2d : bool;
  render : Canvas -> list byte
}.

(** A canvas every pixel of which is the RGBA quadruple [px]. *)
Definition uniform (px : list byte) (c : Canvas) : Prop :=
  (0 < width c * height c)%nat /\
  pixels c = concat (repeat px (width c * height c)).

(** What the HTML canvas guarantees: [getImageData(0, 0, 28, 28)] holds
    [28 * 28 * 4] bytes, and scaling a canvas of one opaque colour over the
    white background gives that colour everywhere. *)
Record PlatformLaws (P : Platform) : Prop := {
  render_length : forall c, length (render P c) = (28 * 28 * 4)%nat;
  render_uniform : forall c r g b,
    uniform [r; g; b; xff] c ->
    render P c = concat (repeat [r; g; b; xff] (28 * 28))
}.

(** A simple scaler that meets these laws: nearest-neighbour sampling, where
    a source pixel that is not opaque is treated as transparent and shows the
    white background. *)
Definition sample (c : Canvas) (k : nat) : list byte :=
  let x := (k mod 28 * width c / 28)%nat in
  let y := (k / 28 * height c / 28)%nat in
  let i := (4 * (y * width c + x))%nat in
  let ch j := nth (i + j) (pixels c) x00 in
  if Byte.eqb (ch 3%nat) xff
  then [ch 0%nat; ch 1%nat; ch 2%nat; xff]
  else [xff; xff; xff; xff].

Definition nearest : Platform := {|
  getContext2d := true;
  render := fun c => concat (map (sample c) (seq 0 (28 * 28)))
|}.

(** Decimal rendering of a number in a template literal. *)
Definition decimal (n : nat) : string := NilEmpty.string_of_uint (Nat.to_uint n).

(** The tensor handed to the inference engine.  The constructor of
    onnxruntime's [Tensor] throws when the data length is not the product of
    the dimensions. *)
Record Tensor : Type := {
  tensor_data : list float;
  dims : list nat
}.

Definition new_Tensor (data : list float) (dims : list nat) : result Tensor :=
  let size := fold_right Nat.mul 1%nat dims in
  if Nat.eqb size (length data)
  then Ok {| tensor_data := data; dims := dims |}
  else Throw (Error ("Tensor's size(" ++ decimal size
                     ++ ") does not match data length("
                     ++ decimal (length data) ++ ")."))%string.

(** *** Numbers of the ranker: reals with rounding *)

(** [rnd x]: the binary64 number an operation whose exact result is [x]
    returns.  [Mexp]: [Math.exp]. *)
Class Arith : Type := {
  rnd : R -> R;
  Mexp : R -> R
}.

(** Unit roundoff of binary64, and half its smallest positive number. *)
Definition u : R := / 2 ^ 53.
Definition eta : R := / 2 ^ 1075.

(** Round-to-nearest binary64 below the overflow threshold: rounding is
    monotone, keeps integers up to [2 ^ 53], errs by at most [u] relatively
    plus [eta] absolutely, and never rounds the difference of two distinct
    binary64 numbers to zero (gradual underflow).  [Math.exp] is exact at 0
    and within [0, 1] on arguments that are not positive. *)
Class ArithLaws (A : Arith) : Prop := {
  rnd_mono : forall x y, (x <= y)%R -> (rnd x <= rnd y)%R;
  rnd_int : forall n : Z, (Z.abs n <= 2 ^ 53)%Z -> rnd (IZR n) = IZR n;
  rnd_err : forall x, (Rabs x <= 2 ^ 1023)%R ->
                      (Rabs (rnd x - x) <= u * Rabs x + eta)%R;
  rnd_sub : forall a b, (rnd a < rnd b)%R -> (0 < rnd (rnd b - rnd a))%R;
  Mexp_0 : Mexp 0%R = 1%R;
  Mexp_le0 : forall d, (d <= 0)%R -> (0 <= Mexp d <= 1)%R
}.

(** Arithmetic without rounding error. *)
Definition exact : Arith := {| rnd := fun x => x; Mexp := exp |}.

(** *** Arrays *)

(** [Math.max(x, ...rest)] on finite numbers. *)
Definition Math_max (x : R) (rest : list R) : R := fold_left Rmax rest x.

(** [arr.reduce(f)] with no initial value. *)
Definition reduce {A : Type} (f : A -> A -> A) (arr : list A) : result A :=
  match arr with
  | [] => Throw (TypeError "Reduce of empty array with no initial value")
  | a :: rest => Ok (fold_left f rest a)
  end.

(** [arr.map((x, index) => f x index)]. *)
Fixpoint mapi_from {A B : Type} (f : A -> nat -> B) (index : nat) (arr : list A) : list B :=
  match arr with
  | [] => []
  | x :: rest => f x index :: mapi_from f (S index) rest
  end.

Definition mapi {A B : Type} (f : A -> nat -> B) (arr : list A) : list B :=
  mapi_from f 0 arr.

(** [arr.sort(comparefn)].  ECMAScript (2019 on) requires a stable sort: for
    a consistent comparator the result is the one permutation in comparator
    order that keeps equal elements in their original order.  It is computed
    here by insertion: [x] moves past [y] exactly when [comparefn(x, y) > 0]. *)
Fixpoint insert {A : Type} (comparefn : A -> A -> R) (x : A) (arr : list A) : list A :=
  match arr with
  | [] => [x]
  | y :: rest =>
      if Rlt_dec 0 (comparefn x y)
      then y :: insert comparefn x rest
      else x :: y :: rest
  end.

Definition sort {A : Type} (comparefn : A -> A -> R) (arr : list A) : list A :=
  fold_right (insert comparefn) [] arr.

(** [s.split(',')[1]]. *)
Fixpoint until_comma (s : string) : string :=
  match s with
  | EmptyString => EmptyString
  | String c rest => if Ascii.eqb c ","%char then EmptyString else String c (until_comma rest)
  end.

Fixpoint split_comma_1 (s : string) : option string :=
  match s with
  | EmptyString => None
  | String c rest => if Ascii.eqb c ","%char then Some (until_comma rest) else split_comma_1 rest
  end.

(** *** Event handlers: state and exceptions *)

Inductive log_entry : Type :=
| ConsoleError (label : string) (e : exn)
| ConsoleLog (label : string) (value : string).

(** The body of [axios.put(url, body, { headers })]. *)
Record PutRequest : Type := {
  url : string;
  message : string;
  content : option string;
  authorization : string
}.

(** What one run of a handler reads from its surroundings: the browser, the
    clock ([Date.now()] in decimal, as this run reads it),
    [canvas.toDataURL('image/png')], the build-time token and the outcome of
    an HTTP PUT (the [html_url] of the response, or the rejection).  Two
    clicks read the clock twice: where their timestamps matter, each click
    has surroundings of its own. *)
Record Env : Type := {
  platform : Platform;
  now : string;
  toDataURL : Canvas -> string;
  token : string;
  put : PutRequest -> result string
}.

Section Handler.
Variable S : Type.

(** A handler runs on a state and returns or throws, leaving a state. *)
Definition M (A : Type) : Type := S -> result A * S.

Definition ret {A : Type} (a : A) : M A := fun st => (Ok a, st).

Definition throw {A : Type} (e : exn) : M A := fun st => (Throw e, st).

Definition bindM {A B : Type} (c : M A) (k : A -> M B) : M B :=
  fun st =>
    match c st with
    | (Ok a, st') => k a st'
    | (Throw e, st') => (Throw e, st')
    end.

(** [try { c } catch (error) { handler error }]. *)
Definition try_catch {A : Type} (c : M A) (handler : exn -> M A) : M A :=
  fun st =>
    match c st with
    | (Ok a, st') => (Ok a, st')
    | (Throw e, st') => handler e st'
    end.

Definition lift {A : Type} (r : result A) : M A := fun st => (r, st).

Definition get : M S := fun st => (Ok st, st).

Definition modify (f : S -> S) : M unit := fun st => (Ok tt, f st).

(** The state a handler leaves. *)
Definition exec {A : Type} (c : M A) (st : S) : S := snd (c st).
End Handler.

Arguments ret {S A} a.
Arguments throw {S A} e.
Arguments bindM {S A B} c k.
Arguments try_catch {S A} c handler.
Arguments lift {S A} r.
Arguments get {S}.
Arguments modify {S} f.
Arguments exec {S A} c st.

Declare Scope handler_scope.
Delimit Scope handler_scope with handler.
Notation "x <-- c ;; k" := (bindM c (fun x => k))
  (at level 61, c at next level, right associativity) : handler_scope.
Notation "c ;;; k" := (bindM c (fun _ => k))
  (at level 61, right associativity) : handler_scope.

End JS.

Import JS.
Local Open Scope handler_scope.

(** ** [App.tsx], the variant with the save-once guards *)

Module App.

Record Prediction : Type := {
  digit : nat;
  probability : R
}.

(** An [ort.InferenceSession]: [session.run({ input })] followed by
    [outputs.output.data], converted by [Array.from]. *)
Definition Session : Type := Tensor -> result (list R).

(** The component state ([useState], [useRef]) together with what the
    handlers leave outside it: the console output and the HTTP requests
    issued, oldest first. *)
Record State : Type := {
  canvasRef : option Canvas;
  predictions : list Prediction;
  session : option Session;
  uploadCount : nat;
  saveMessage : string;
  canvasModified : bool;
  currentDrawingSaved : bool;
  console : list log_entry;
  requests : list PutRequest
}.

Definition setPredictions (v : list Prediction) : M State unit :=
  modify (fun st =>
    {| canvasRef := canvasRef st; predictions := v; session := session st;
       uploadCount := uploadCount st; saveMessage := saveMessage st;
       canvasModified := canvasModified st;
       currentDrawingSaved := currentDrawingSaved st;
       console := console st; requests := requests st |}).

Definition setUploadCount (f : nat -> nat) : M State unit :=
  modify (fun st =>
    {| canvasRef := canvasRef st; predictions := predictions st;
       session := session st; uploadCount := f (uploadCount st);
       saveMessage := saveMessage st; canvasModified := canvasModified st;
       currentDrawingSaved := currentDrawingSaved st;
       console := console st; requests := requests st |}).

Definition setSaveMessage (v : string) : M State unit :=
  modify (fun st =>
    {| canvasRef := canvasRef st; predictions := predictions st;
       session := session st; uploadCount := uploadCount st;
       saveMessage := v; canvasModified := canvasModified st;
       currentDrawingSaved := currentDrawingSaved st;
       console := console st; requests := requests st |}).

Definition setCanvasModified (v : bool) : M State unit :=
  modify (fun st =>
    {| canvasRef := canvasRef st; predictions := predictions st;
       session := session st; uploadCount := uploadCount st;
       saveMessage := saveMessage st; canvasModified := v;
       currentDrawingSaved := currentDrawingSaved st;
       console := console st; requests := requests st |}).

Definition setCurrentDrawingSaved (v : bool) : M State unit :=
  modify (fun st =>
    {| canvasRef := canvasRef st; predictions := predictions st;
       session := session st; uploadCount := uploadCount st;
       saveMessage := saveMessage st; canvasModified := canvasModified st;
       currentDrawingSaved := v;
       console := console st; requests := requests st |}).

Definition console_write (entry : log_entry) : M State unit :=
  modify (fun st =>
    {| canvasRef := canvasRef st; predictions := predictions st;
       session := session st; uploadCount := uploadCount st;
       saveMessage := saveMessage st; canvasModified := canvasModified st;
       currentDrawingSaved := currentDrawingSaved st;
       console := console st ++ [entry]; requests := requests st |}).

(** [await axios.put(...)]: the request goes out, then the promise settles. *)
Definition axios_put (E : Env) (req : PutRequest) : M State string :=
  modify (fun st =>
    {| canvasRef := canvasRef st; predictions := predictions st;
       session := session st; uploadCount := uploadCount st;
       saveMessage := saveMessage st; canvasModified := canvasModified st;
       currentDrawingSaved := currentDrawingSaved st;
       console := console st; requests := requests st ++ [req] |}) ;;;
  lift (put E req).

(** What the component renders from the state: the save message and the
    first three predictions. *)
Definition view (st : State) : string * list Prediction :=
  (saveMessage st, firstn 3 (predictions st)).

(** [preprocessCanvas], the loop body: the value stored for the pixel whose
    first byte is at index [i]. *)
Definition pixel_value (data : list byte) (i : nat) : float :=
  let grayscale := ((read data i + read data (i + 1) + read data (i + 2)) / 3)%float in
  ((255 - grayscale) / 255 * 2 - 1)%float.

(** [for (let i = 0; i < imageData.data.length; i += 4) data[i / 4] = ...]:
    the iterations are [i = 4 * k] for [k < ceil(length / 4)]. *)
Definition convert (imageData : list byte) : list float :=
  fold_left (fun data k => store data k (pixel_value imageData (4 * k)))
            (seq 0 ((length imageData + 3) / 4))
            (Float32Array (28 * 28)).

Definition preprocessCanvas (P : Platform) (canvas : Canvas) : result (list float) :=
  if getContext2d P
  then Ok (convert (render P canvas))
  else Throw (Error "Could not get canvas context").

Section Ranker.
Context {A : Arith}.

(** [Math.max()] of an empty array is [-Infinity]; nothing reads it, as
    [exp] is then empty and [reduce] throws. *)
Definition softmax (arr : list R) : result (list R) :=
  let exp :=
    match arr with
    | [] => []
    | x0 :: rest =>
        let max := Math_max x0 rest in
        map (fun x => Mexp (rnd (x - max))) arr
    end in
  (sum <- reduce (fun a b => rnd (a + b)) exp ;;
   Ok (map (fun x => rnd (x / sum)) exp))%R.

(** Lines 163-169 of [predict]: from the output data to the predictions. *)
Definition ranking (outputData : list R) : result (list Prediction) :=
  softmaxOutput <- softmax outputData ;;
  Ok (sort (fun a b => rnd (probability b - probability a))
           (mapi (fun prob index => {| digit := index; probability := prob |})
                 softmaxOutput)).

Definition predict (E : Env) : M State unit :=
  st <-- get ;;
  match session st, canvasRef st with
  | Some session, Some canvas =>
      try_catch
        (data <-- lift (preprocessCanvas (platform E) canvas) ;;
         inputTensor <-- lift (new_Tensor data [1; 1; 28; 28]%nat) ;;
         outputData <-- lift (session inputTensor) ;;
         predictions <-- lift (ranking outputData) ;;
         setPredictions predictions)
        (fun error => console_write (ConsoleError "Prediction error:" error))
  | _, _ => ret tt
  end.
End Ranker.

Definition saveImageToGitHub (E : Env) (imageDataUrl fileName : string) : M State unit :=
  st <-- get ;;
  let repo := "justadude12/mnist-images"%string in
  let path := (fileName ++ ".png")%string in
  let content := split_comma_1 imageDataUrl in
  try_catch
    (html_url <-- axios_put E
       {| url := ("https://api.github.com/repos/" ++ repo ++ "/contents/" ++ path)%string;
          message := ("Add image " ++ fileName)%string;
          content := content;
          authorization := ("token " ++ token E)%string |} ;;
     setUploadCount (fun prev => prev + 1)%nat ;;;
     setSaveMessage ("Successfully uploaded image "
                     ++ decimal (uploadCount st + 1) ++ "!")%string ;;;
     console_write (ConsoleLog "Image saved to GitHub:" html_url))
    (fun error =>
       setSaveMessage "Error uploading image" ;;;
       console_write (ConsoleError "Error saving image to GitHub:" error)).

Definition saveImage (E : Env) : M State unit :=
  st <-- get ;;
  match canvasRef st with
  | None => ret tt
  | Some canvas =>
      if negb (canvasModified st)
      then setSaveMessage "Please draw a digit before saving"
      else if currentDrawingSaved st
      then setSaveMessage "This drawing has already been saved"
      else
        try_catch
          (let dataUrl := toDataURL E canvas in
           let timestamp := now E in
           let fileName := ("digit_9_" ++ timestamp)%string in
           saveImageToGitHub E dataUrl fileName ;;;
           setCurrentDrawingSaved true)
          (fun error => console_write (ConsoleError "Error saving image:" error))
  end.

(** [ctx.clearRect(0, 0, width, height)]: every pixel transparent black. *)
Definition clearRect (c : Canvas) : Canvas :=
  {| width := width c; height := height c;
     pixels := repeat x00 (4 * width c * height c) |}.

Definition setCanvas (c : Canvas) : M State unit :=
  modify (fun st =>
    {| canvasRef := Some c; predictions := predictions st;
       session := session st; uploadCount := uploadCount st;
       saveMessage := saveMessage st; canvasModified := canvasModified st;
       currentDrawingSaved := currentDrawingSaved st;
       console := console st; requests := requests st |}).

Definition clearCanvas : M State unit :=
  st <-- get ;;
  match canvasRef st with
  | Some canvas =>
      setCanvas (clearRect canvas) ;;;
      setPredictions [] ;;;
      setCanvasModified false ;;;
      setCurrentDrawingSaved false
  | None => ret tt
  end.

End App.

(** ** The variant without the guards *)

Module Unguarded.

Record Prediction : Type := {
  digit : nat;
  probability : R
}.

Definition Session : Type := Tensor -> result (list R).

Record State : Type := {
  canvasRef : option Canvas;
  predictions : list Prediction;
  session : option Session;
  console : list log_entry;
  requests : list PutRequest
}.

Definition setPredictions (v : list Prediction) : M State unit :=
  modify (fun st =>
    {| canvasRef := canvasRef st; predictions := v; session := session st;
       console := console st; requests := requests st |}).

Definition console_write (entry : log_entry) : M State unit :=
  modify (fun st =>
    {| canvasRef := canvasRef st; predictions := predictions st;
       session := session st;
       console := console st ++ [entry]; requests := requests st |}).

Definition axios_put (E : Env) (req : PutRequest) : M State string :=
  modify (fun st =>
    {| canvasRef := canvasRef st; predictions := predictions st;
       session := session st;
       console := console st; requests := requests st ++ [req] |}) ;;;
  lift (put E req).

Definition view (st : State) : list Prediction := firstn 3 (predictions st).

Definition pixel_value (data : list byte) (i : nat) : float :=
  let grayscale := ((read data i + read data (i + 1) + read data (i + 2)) / 3)%float in
  ((255 - grayscale) / 255 * 2 - 1)%float.

Definition convert (imageData : list byte) : list float :=
  fold_left (fun data k => store data k (pixel_value imageData (4 * k)))
            (seq 0 ((length imageData + 3) / 4))
            (Float32Array (28 * 28)).

Definition preprocessCanvas (P : Platform) (canvas : Canvas) : result (list float) :=
  if getContext2d P
  then Ok (convert (render P canvas))
  else Throw (Error "Could not get canvas context").

Section Ranker.
Context {A : Arith}.

Definition softmax (arr : list R) : result (list R) :=
  let exp :=
    match arr with
    | [] => []
    | x0 :: rest =>
        let max := Math_max x0 rest in
        map (fun x => Mexp (rnd (x - max))) arr
    end in
  (sum <- reduce (fun a b => rnd (a + b)) exp ;;
   Ok (map (fun x => rnd (x / sum)) exp))%R.

Definition ranking (outputData : list R) : result (list Prediction) :=
  softmaxOutput <- softmax outputData ;;
  Ok (sort (fun a b => rnd (probability b - probability a))
           (mapi (fun prob index => {| digit := index; probability := prob |})
                 softmaxOutput)).

Definition predict (E : Env) : M State unit :=
  st <-- get ;;
  match session st, canvasRef st with
  | Some session, Some canvas =>
      try_catch
        (data <-- lift (preprocessCanvas (platform E) canvas) ;;
         inputTensor <-- lift (new_Tensor data [1; 1; 28; 28]%nat) ;;
         outputData <-- lift (session inputTensor) ;;
         predictions <-- lift (ranking outputData) ;;
         setPredictions predictions)
        (fun error => console_write (ConsoleError "Prediction error:" error))
  | _, _ => ret tt
  end.
End Ranker.

Definition saveImageToGitHub (E : Env) (imageDataUrl fileName : string) : M State unit :=
  let repo := "justadude12/mnist-images"%string in
  let path := (fileName ++ ".png")%string in
  let content := split_comma_1 imageDataUrl in
  try_catch
    (html_url <-- axios_put E
       {| url := ("https://api.github.com/repos/" ++ repo ++ "/contents/" ++ path)%string;
          message := ("Add image " ++ fileName)%string;
          content := content;
          authorization := ("token " ++ token E)%string |} ;;
     console_write (ConsoleLog "Image saved to GitHub:" html_url))
    (fun error =>
       console_write (ConsoleError "Error saving image to GitHub:" error)).

Definition saveImage (E : Env) : M State unit :=
  st <-- get ;;
  match canvasRef st with
  | None => ret tt
  | Some canvas =>
      try_catch
        (let dataUrl := toDataURL E canvas in
         let timestamp := now E in
         let fileName := ("digit_9_" ++ timestamp)%string in
         saveImageToGitHub E dataUrl fileName)
        (fun error => console_write (ConsoleError "Error saving image:" error))
  end.

End Unguarded.

(** ** Vocabulary of the statements *)

(** The integers [0 .. n-1]. *)
Definition zrange (n : nat) : list Z := map Z.of_nat (seq 0 n).

(** The value stored for a pixel whose colour channels sum to [s]. *)
Definition tensor_value (s : Z) : float :=
  fround ((255 - Z2F s / 3) / 255 * 2 - 1)%float.

(** A finite number of [[-1, 1]]. *)
Definition in_range (v : float) : bool :=
  is_finite v && (-1 <=? v)%float && (v <=? 1)%float.

(** The exact sum of a list of numbers. *)
Definition Rsum (l : list R) : R := fold_right Rplus 0%R l.

Definition unit_interval (x : R) : Prop := (0 <= x <= 1)%R.

(** The array [exp] of [softmax]. *)
Definition exps {A : Arith} (arr : list R) : list R :=
  match arr with
  | [] => []
  | x0 :: rest => map (fun x => Mexp (rnd (x - Math_max x0 rest))) arr
  end.

(** One rounded addition of numbers below 11 errs by at most [delta]. *)
Definition delta : R := (11 * u + eta)%R.

(** A number that some operation returned. *)
Definition representable {A : Arith} (p : R) : Prop := exists x, p = rnd x.

(** [a] is listed before [b]: higher probability first, and the lower digit
    first among equal probabilities. *)
Definition ranked_before (a b : App.Prediction) : Prop :=
  (App.probability b < App.probability a)%R \/
  (App.probability a = App.probability b /\
   (App.digit a < App.digit b)%nat).

(** The callbacks of [predict]: [(prob, index) => ({ digit, probability })]
    and [(a, b) => b.probability - a.probability]. *)
Definition entry (prob : R) (index : nat) : App.Prediction :=
  {| App.digit := index; App.probability := prob |}.

Definition by_probability {A : Arith} (a b : App.Prediction) : R :=
  rnd (App.probability b - App.probability a).

Definition variant_entry (prob : R) (index : nat) : Unguarded.Prediction :=
  {| Unguarded.digit := index; Unguarded.probability := prob |}.

(** The session, the canvas and the 2D context are there, and the inference
    on the preprocessed canvas settles with [outcome]. *)
Definition inference (E : Env) (st : App.State) (outcome : result (list R)) : Prop :=
  exists run canvas,
    App.session st = Some run /\
    App.canvasRef st = Some canvas /\
    getContext2d (platform E) = true /\
    run {| tensor_data := App.convert (render (platform E) canvas);
           dims := [1; 1; 28; 28]%nat |} = outcome.

Definition variant_inference (E : Env) (st : Unguarded.State)
           (outcome : result (list R)) : Prop :=
  exists run canvas,
    Unguarded.session st = Some run /\
    Unguarded.canvasRef st = Some canvas /\
    getContext2d (platform E) = true /\
    run {| tensor_data := Unguarded.convert (render (platform E) canvas);
           dims := [1; 1; 28; 28]%nat |} = outcome.

(** A score vector of another length than 10 leaves the predictions as they
    were and is reported. *)
Definition wrong_length_rejected (A : Arith) (E : Env) (st : App.State) : Prop :=
  forall scores,
    inference E st (Ok scores) -> length scores <> 10%nat ->
    let st' := exec (App.predict E) st in
    App.predictions st' = App.predictions st /\
    App.console st' <> App.console st.

(** A failed inference changes what the user sees and leaves the predictions
    as they were. *)
Definition failure_shown (A : Arith) (E : Env) (st : App.State) : Prop :=
  forall error,
    inference E st (Throw error) ->
    let st' := exec (App.predict E) st in
    App.view st' <> App.view st /\
    App.predictions st' = App.predictions st.

(** The vector obtained by adding [c] to every score, as binary64 adds. *)
Definition shifted {A : Arith} (c : R) (scores : list R) : list R :=
  map (fun x => rnd (x + c)%R) scores.

(** Adding [c] to every score leaves the ranking as it is. *)
Definition shift_invariant (A : Arith) (scores : list R) (c : R) : Prop :=
  App.ranking (shifted c scores) = App.ranking scores.

(** An arithmetic that rounds as binary64 does just above [2 ^ 60], where
    the binary64 numbers are 256 apart, and is exact elsewhere. *)
Definition coarse : Arith :=
  {| rnd := fun x =>
       if Rle_dec (2 ^ 60) x
       then if Rle_dec x (2 ^ 60 + 16) then (2 ^ 60)%R else x
       else x;
     Mexp := exp |}.

(** ** Sample surroundings and states *)

Definition white_canvas : Canvas :=
  {| width := 2; height := 2; pixels := repeat xff 16 |}.

(** Surroundings in which every upload is refused. *)
Definition failing_network : Env :=
  {| platform := nearest;
     now := "1700000000000";
     toDataURL := fun _ => "data:image/png;base64,iVBORw0KGgo="%string;
     token := "ghp_example";
     put := fun _ => Throw (Rejected "Request failed with status code 401") |}.

(** A page whose model is [run], with a drawing that was not saved yet. *)
Definition drawn (run : App.Session) : App.State :=
  {| App.canvasRef := Some white_canvas;
     App.predictions := [];
     App.session := Some run;
     App.uploadCount := 0;
     App.saveMessage := EmptyString;
     App.canvasModified := true;
     App.currentDrawingSaved := false;
     App.console := [];
     App.requests := [] |}.

Definition ten_scores : list R := [1; 2; 3; 4; 5; 6; 7; 8; 9; 10]%R.

Definition returns (scores : list R) : App.Session := fun _ => Ok scores.

Definition rejects : App.Session :=
  fun _ => Throw (Rejected "failed to call OrtRun()").

(** ** The rest of [App.tsx]: model loading, drawing and rendering *)

Module Events.

(** [loadModel] of the mount effect: [created] is how
    [ort.InferenceSession.create('/model.onnx')] settles. *)
Definition setSession (v : option App.Session) : M App.State unit :=
  modify (fun st =>
    {| App.canvasRef := App.canvasRef st; App.predictions := App.predictions st;
       App.session := v; App.uploadCount := App.uploadCount st;
       App.saveMessage := App.saveMessage st;
       App.canvasModified := App.canvasModified st;
       App.currentDrawingSaved := App.currentDrawingSaved st;
       App.console := App.console st; App.requests := App.requests st |}).

Definition loadModel (created : result App.Session) : M App.State unit :=
  try_catch
    (session <-- lift created ;;
     setSession (Some session))
    (fun e =>
       App.console_write (ConsoleError "Failed to load model:" e) ;;;
       throw e).

(** A pointer position in client coordinates ([clientX], [clientY]). *)
Record Point : Type := {
  clientX : R;
  clientY : R
}.

(** What the drawing handlers read from the page: whether the canvas gives
    a 2D context, where the canvas lies ([offsetLeft], [offsetTop], and the
    [left] and [top] of [getBoundingClientRect()]), and what [ctx.stroke()]
    paints for a path, a line width and a line cap. *)
Record Surface : Type := {
  context2d : bool;
  offsetLeft : R;
  offsetTop : R;
  rectLeft : R;
  rectTop : R;
  stroke : Canvas -> list (R * R) -> Z -> string -> Canvas
}.

(** The component with its [isDrawing] state and the state of the 2D
    context of its canvas: the current path, [lineWidth] and [lineCap]. *)
Record Page : Type := {
  app : App.State;
  isDrawing : bool;
  path : list (R * R);
  lineWidth : Z;
  lineCap : string
}.

(** A handler of the component state, run on the page. *)
Definition on_app {T : Type} (h : M App.State T) : M Page T :=
  fun pg =>
    let (r, st) := h (app pg) in
    (r, {| app := st; isDrawing := isDrawing pg; path := path pg;
           lineWidth := lineWidth pg; lineCap := lineCap pg |}).

Definition setIsDrawing (v : bool) : M Page unit :=
  modify (fun pg =>
    {| app := app pg; isDrawing := v; path := path pg;
       lineWidth := lineWidth pg; lineCap := lineCap pg |}).

(** [ctx.beginPath(); ctx.moveTo(x, y)], and [ctx.lineTo(x, y)]. *)
Definition setPath (v : list (R * R)) : M Page unit :=
  modify (fun pg =>
    {| app := app pg; isDrawing := isDrawing pg; path := v;
       lineWidth := lineWidth pg; lineCap := lineCap pg |}).

Definition lineTo (x y : R) : M Page unit :=
  modify (fun pg =>
    {| app := app pg; isDrawing := isDrawing pg; path := path pg ++ [(x, y)];
       lineWidth := lineWidth pg; lineCap := lineCap pg |}).

Definition setLine (w : Z) (cap : string) : M Page unit :=
  modify (fun pg =>
    {| app := app pg; isDrawing := isDrawing pg; path := path pg;
       lineWidth := w; lineCap := cap |}).

(** [ctx.stroke()] on the component's canvas. *)
Definition ctx_stroke (U : Surface) (canvas : Canvas) : M Page unit :=
  pg <-- get ;;
  on_app (App.setCanvas (stroke U canvas (path pg) (lineWidth pg) (lineCap pg))).

Section Handlers.
Context {A : Arith}.

Definition startDrawing (U : Surface) (e : Point) : M Page unit :=
  setIsDrawing true ;;;
  pg <-- get ;;
  match App.canvasRef (app pg) with
  | Some canvas =>
      if context2d U
      then setPath [(rnd (clientX e - offsetLeft U), rnd (clientY e - offsetTop U))%R]
      else ret tt
  | None => ret tt
  end.

Definition draw (U : Surface) (e : Point) : M Page unit :=
  pg <-- get ;;
  if negb (isDrawing pg) then ret tt
  else
    match App.canvasRef (app pg) with
    | Some canvas =>
        if context2d U
        then
          setLine 13 "round" ;;;
          lineTo (rnd (clientX e - offsetLeft U)) (rnd (clientY e - offsetTop U))%R ;;;
          on_app (App.setCanvasModified true) ;;;
          ctx_stroke U canvas
        else ret tt
    | None => ret tt
    end.

(** [e.touches[0]] where its [clientX] is read: with no touch, reading it
    throws.  That is after [ctx.beginPath()] in [handleTouchStart], and after
    [lineWidth] and [lineCap] are set in [handleTouchMove]. *)
Definition first_touch (touches : list Point) : result Point :=
  match touches with
  | touch :: _ => Ok touch
  | [] => Throw (TypeError "Cannot read properties of undefined (reading 'clientX')")
  end.

Definition handleTouchStart (U : Surface) (touches : list Point) : M Page unit :=
  setIsDrawing true ;;;
  pg <-- get ;;
  match App.canvasRef (app pg) with
  | Some canvas =>
      if context2d U
      then
        setPath [] ;;;
        touch <-- lift (first_touch touches) ;;
        setPath [(rnd (clientX touch - rectLeft U), rnd (clientY touch - rectTop U))%R]
      else ret tt
  | None => ret tt
  end.

Definition handleTouchMove (U : Surface) (touches : list Point) : M Page unit :=
  pg <-- get ;;
  if negb (isDrawing pg) then ret tt
  else
    match App.canvasRef (app pg) with
    | Some canvas =>
        if context2d U
        then
          setLine 13 "round" ;;;
          touch <-- lift (first_touch touches) ;;
          lineTo (rnd (clientX touch - rectLeft U)) (rnd (clientY touch - rectTop U))%R ;;;
          on_app (App.setCanvasModified true) ;;;
          ctx_stroke U canvas
        else ret tt
    | None => ret tt
    end.
End Handlers.

Definition stopDrawing : M Page unit := setIsDrawing false.

(** [clearCanvas] reads the context of the component's canvas as the drawing
    handlers do; with it, it is [App.clearCanvas]. *)
Definition clearCanvas (U : Surface) : M Page unit :=
  if context2d U then on_app App.clearCanvas else ret tt.

(** *** The wiring of the canvas and of the buttons *)

Inductive event : Type :=
| MouseDown (e : Point)
| MouseMove (e : Point)
| MouseUp
| MouseOut
| TouchStart (touches : list Point)
| TouchMove (touches : list Point)
| TouchEnd
| ClickPredict
| ClickClear
| ClickSave.

Definition handle {A : Arith} (E : Env) (U : Surface) (ev : event) : M Page unit :=
  match ev with
  | MouseDown e => startDrawing U e
  | MouseMove e => draw U e
  | MouseUp | MouseOut | TouchEnd => stopDrawing
  | TouchStart touches => handleTouchStart U touches
  | TouchMove touches => handleTouchMove U touches
  | ClickPredict => on_app (App.predict E)
  | ClickClear => clearCanvas U
  | ClickSave => on_app (App.saveImage E)
  end.

(** The events of a session in which every handler has settled before the
    next event arrives: the async handlers [predict] and [saveImage] run to
    their end, with the answer of the request they wait for, before anything
    else happens (for a click that falls between a click on save and the
    answer to its upload, see [Pending]).  An exception a handler does not
    catch ends that handler only.  The surroundings [E] are the same at every
    event. *)
Definition run {A : Arith} (E : Env) (U : Surface) (evs : list event) (pg : Page) : Page :=
  fold_left (fun pg ev => exec (handle E U ev) pg) evs pg.

(** *** What the component renders *)

(** [s.includes(sub)]. *)
Fixpoint includes (sub s : string) : bool :=
  match s with
  | EmptyString => String.prefix sub EmptyString
  | String _ rest => String.prefix sub s || includes sub rest
  end.

Inductive colour : Type := error_colour | success_colour.

(** The [Typography] under the buttons, when [saveMessage] is not empty, and
    the predictions of the [Paper], when there are any: the first three. *)
Record Rendered : Type := {
  shown_message : option (colour * string);
  shown_predictions : list App.Prediction
}.

Definition render_app (st : App.State) : Rendered :=
  {| shown_message :=
       match App.saveMessage st with
       | EmptyString => None
       | msg => Some (if includes "Error" msg then error_colour else success_colour, msg)
       end;
     shown_predictions :=
       if Nat.ltb 0 (length (App.predictions st))
       then firstn 3 (App.predictions st)
       else [] |}.

End Events.

(** ** A click on save, step by step

    [saveImage] is an async function: a click runs it up to the [await] of
    [axios.put], which sends the request, and the rest runs when the request
    is answered.  Other handlers can run in between. *)

Module Pending.

(** What the suspended call holds: the request it sent, and [uploadCount] as
    the render in which the click fell had it (the closure of
    [saveImageToGitHub]). *)
Record Upload : Type := {
  request : PutRequest;
  uploadCount_seen : nat
}.

Definition send (req : PutRequest) : M App.State unit :=
  modify (fun st =>
    {| App.canvasRef := App.canvasRef st; App.predictions := App.predictions st;
       App.session := App.session st; App.uploadCount := App.uploadCount st;
       App.saveMessage := App.saveMessage st;
       App.canvasModified := App.canvasModified st;
       App.currentDrawingSaved := App.currentDrawingSaved st;
       App.console := App.console st; App.requests := App.requests st ++ [req] |}).

(** [saveImage] from the click to [await axios.put(...)]. *)
Definition click (E : Env) : M App.State (option Upload) :=
  st <-- get ;;
  match App.canvasRef st with
  | None => ret None
  | Some canvas =>
      if negb (App.canvasModified st)
      then App.setSaveMessage "Please draw a digit before saving" ;;; ret None
      else if App.currentDrawingSaved st
      then App.setSaveMessage "This drawing has already been saved" ;;; ret None
      else
        let dataUrl := toDataURL E canvas in
        let timestamp := now E in
        let fileName := ("digit_9_" ++ timestamp)%string in
        let repo := "justadude12/mnist-images"%string in
        let path := (fileName ++ ".png")%string in
        let req :=
          {| url := ("https://api.github.com/repos/" ++ repo ++ "/contents/" ++ path)%string;
             message := ("Add image " ++ fileName)%string;
             content := split_comma_1 dataUrl;
             authorization := ("token " ++ token E)%string |} in
        send req ;;;
        ret (Some {| request := req; uploadCount_seen := App.uploadCount st |})
  end.

(** The rest of [saveImageToGitHub] and of [saveImage], once the request is
    answered with [outcome]. *)
Definition settle (p : Upload) (outcome : result string) : M App.State unit :=
  try_catch
    (try_catch
       (html_url <-- lift outcome ;;
        App.setUploadCount (fun prev => prev + 1)%nat ;;;
        App.setSaveMessage ("Successfully uploaded image "
                            ++ decimal (uploadCount_seen p + 1) ++ "!")%string ;;;
        App.console_write (ConsoleLog "Image saved to GitHub:" html_url))
       (fun error =>
          App.setSaveMessage "Error uploading image" ;;;
          App.console_write (ConsoleError "Error saving image to GitHub:" error)) ;;;
     App.setCurrentDrawingSaved true)
    (fun error => App.console_write (ConsoleError "Error saving image:" error)).

End Pending.

(** ** The rest of the variant without the guards *)

Module UnguardedEvents.

Definition setCanvas (c : Canvas) : M Unguarded.State unit :=
  modify (fun st =>
    {| Unguarded.canvasRef := Some c; Unguarded.predictions := Unguarded.predictions st;
       Unguarded.session := Unguarded.session st;
       Unguarded.console := Unguarded.console st;
       Unguarded.requests := Unguarded.requests st |}).

Definition clearCanvas (U : Events.Surface) : M Unguarded.State unit :=
  st <-- get ;;
  match Unguarded.canvasRef st with
  | Some canvas =>
      if Events.context2d U
      then setCanvas (App.clearRect canvas) ;;; Unguarded.setPredictions []
      else ret tt
  | None => ret tt
  end.

End UnguardedEvents.

(** ** Vocabulary of the further properties *)

(** The request [saveImage] sends for [canvas]. *)
Definition upload_request (E : Env) (canvas : Canvas) : PutRequest :=
  {| url := ("https://api.github.com/repos/justadude12/mnist-images/contents/digit_9_"
             ++ now E ++ ".png")%string;
     message := ("Add image digit_9_" ++ now E)%string;
     content := split_comma_1 (toDataURL E canvas);
     authorization := ("token " ++ token E)%string |}.

(** A state on which the guards of [saveImage] stop the click. *)
Definition save_blocked (st : App.State) : Prop :=
  App.canvasRef st = None \/
  App.canvasModified st = false \/
  App.currentDrawingSaved st = true.

(** Running a click on save symbolically. *)
Ltac run_saveImage :=
  unfold exec, App.saveImage, App.saveImageToGitHub, App.axios_put,
    bindM, get, try_catch, modify, lift; cbn.

(** A string without a comma. *)
Fixpoint comma_free (s : string) : Prop :=
  match s with
  | EmptyString => True
  | String c rest => c <> ","%char /\ comma_free rest
  end.

Ltac run_variant_saveImage :=
  unfold exec, Unguarded.saveImage, Unguarded.saveImageToGitHub,
    Unguarded.axios_put, bindM, get, try_catch, modify, lift; cbn.

(** The console entry that reports how an upload ended. *)
Definition upload_log (outcome : result string) : log_entry :=
  match outcome with
  | Ok html_url => ConsoleLog "Image saved to GitHub:" html_url
  | Throw error => ConsoleError "Error saving image to GitHub:" error
  end.

(** A string without the character [c]. *)
Fixpoint avoids (c : ascii) (s : string) : Prop :=
  match s with
  | EmptyString => True
  | String d rest => d <> c /\ avoids c rest
  end.

(** The sum of the three colour bytes of pixel [k]. *)
Definition channel_sum (d : list byte) (k : nat) : Z :=
  (byte_val (nth (4 * k) d x00) + byte_val (nth (4 * k + 1) d x00)
   + byte_val (nth (4 * k + 2) d x00))%Z.

(** Every element is at least every later one. *)
Fixpoint descending (l : list float) : bool :=
  match l with
  | [] => true
  | x :: rest => forallb (fun y => (y <=? x)%float) l && descending rest
  end.

(** A browser that shows the white fill through a canvas that is fully
    transparent. *)
Definition transparent_shows_white (P : Platform) : Prop :=
  forall c,
    (0 < width c * height c)%nat ->
    pixels c = repeat x00 (4 * width c * height c) ->
    render P c = concat (repeat [xff; xff; xff; xff] (28 * 28)).

(** Where the canvas sees a pointer position. *)
Definition on_canvas {A : Arith} (U : Events.Surface) (e : Events.Point) : R * R :=
  (rnd (Events.clientX e - Events.offsetLeft U),
   rnd (Events.clientY e - Events.offsetTop U))%R.

(** The canvas after the moves [qs] of a drag whose path so far is [path]:
    each move strokes the whole path again. *)
Fixpoint drag_canvas (U : Events.Surface) (c : Canvas) (path qs : list (R * R)) : Canvas :=
  match qs with
  | [] => c
  | q :: rest =>
      drag_canvas U (Events.stroke U c (path ++ [q]) 13 "round") (path ++ [q]) rest
  end.

(** What a click on save may still send: one request unless the drawing
    counts as saved. *)
Definition unsent (pg : Events.Page) : nat :=
  if App.currentDrawingSaved (Events.app pg) then 0 else 1.

Definition count_clear (evs : list Events.event) : nat :=
  length (filter (fun ev => match ev with Events.ClickClear => true | _ => false end)
                 evs).

(** The events of a pointer that is not pressed: moves and releases. *)
Definition passive (ev : Events.event) : Prop :=
  match ev with
  | Events.MouseMove _ | Events.TouchMove _
  | Events.MouseUp | Events.MouseOut | Events.TouchEnd => True
  | _ => False
  end.

(** The events that renew the predictions: the clicks on predict and clear. *)
Definition renews (ev : Events.event) : bool :=
  match ev with
  | Events.ClickPredict | Events.ClickClear => true
  | _ => false
  end.

(** Running the handlers of the page symbolically. *)
Ltac run_handlers :=
  unfold exec, Events.handle, Events.startDrawing, Events.draw,
    Events.handleTouchStart, Events.handleTouchMove, Events.stopDrawing,
    Events.clearCanvas, Events.ctx_stroke, Events.on_app, Events.setIsDrawing,
    Events.setPath, Events.lineTo, Events.setLine, Events.first_touch,
    App.clearCanvas, App.setCanvas, App.setPredictions,
    App.setCanvasModified, App.setCurrentDrawingSaved,
    bindM, get, try_catch, modify, lift, ret; cbn.

(** ** More sample surroundings *)

(** Surroundings in which every upload is accepted. *)
Definition working_network : Env :=
  {| platform := nearest;
     now := "1700000000000";
     toDataURL := fun _ => "data:image/png;base64,iVBORw0KGgo="%string;
     token := "ghp_example";
     put := fun req => Ok ("https://github.com/justadude12/mnist-images/blob/main/sample.png")%string |}.

(** The surroundings of a click one second later, which is accepted too. *)
Definition a_second_later : Env :=
  {| platform := nearest;
     now := "1700000001000";
     toDataURL := fun _ => "data:image/png;base64,iVBORw0KGgo="%string;
     token := "ghp_example";
     put := fun req => Ok ("https://github.com/justadude12/mnist-images/blob/main/later.png")%string |}.

(** Surroundings whose temporary canvas gives no 2D context. *)
Definition without_context : Env :=
  {| platform := {| getContext2d := false; render := fun _ => [] |};
     now := "1700000000000";
     toDataURL := fun _ => "data:image/png;base64,iVBORw0KGgo="%string;
     token := "ghp_example";
     put := fun _ => Throw (Rejected "Request failed with status code 401") |}.

Definition black_canvas : Canvas :=
  {| width := 2; height := 2;
     pixels := concat (repeat [x00; x00; x00; xff] 4) |}.

(** The state of the variant with a canvas and the model [run]. *)
Definition variant_drawn (run : Unguarded.Session) : Unguarded.State :=
  {| Unguarded.canvasRef := Some white_canvas;
     Unguarded.predictions := [];
     Unguarded.session := Some run;
     Unguarded.console := [];
     Unguarded.requests := [] |}.

(** The state before the model is loaded. *)
Definition loading : App.State :=
  {| App.canvasRef := Some white_canvas;
     App.predictions := [];
     App.session := None;
     App.uploadCount := 0;
     App.saveMessage := EmptyString;
     App.canvasModified := false;
     App.currentDrawingSaved := false;
     App.console := [];
     App.requests := [] |}.

(** A canvas at the origin of the page, whose strokes blacken it. *)
Definition board : Events.Surface :=
  {| Events.context2d := true;
     Events.offsetLeft := 0; Events.offsetTop := 0;
     Events.rectLeft := 0; Events.rectTop := 0;
     Events.stroke := fun c _ _ _ =>
       {| width := width c; height := height c;
          pixels := concat (repeat [x00; x00; x00; xff] (width c * height c)) |} |}.

Definition page_of (st : App.State) : Events.Page :=
  {| Events.app := st; Events.isDrawing := false; Events.path := [];
     Events.lineWidth := 1; Events.lineCap := "butt" |}.

Definition point (x y : R) : Events.Point :=
  {| Events.clientX := x; Events.clientY := y |}.

(** A scaler that shows the pixel [px] everywhere. *)
Definition shows (px : list byte) : Platform :=
  {| getContext2d := true; render := fun _ => concat (repeat px 784) |}.

Local Open Scope R_scope.

(** ** Typed-array stores *)

Lemma store_length (data : list float) (k : nat) (v : float) :
  length (store data k v) = length data.
Proof.
  revert k; induction data as [|h t IH]; intros [|k]; simpl; auto.
Qed.

Lemma nth_error_store (data : list float) (k j : nat) (v : float) :
  nth_error (store data k v) j =
  if Nat.eqb j k then option_map (fun _ => fround v) (nth_error data j)
  else nth_error data j.
Proof.
  revert k j; induction data as [|h t IH]; intros [|k] [|j]; simpl; auto;
    destruct (Nat.eqb _ _); reflexivity.
Qed.

(** Storing [f k] at every index [k < n], in increasing order. *)
Lemma nth_error_fill (f : nat -> float) (n : nat) (data : list float) (j : nat) :
  nth_error (fold_left (fun d k => store d k (f k)) (seq 0 n) data) j =
  if Nat.ltb j n then option_map (fun _ => fround (f j)) (nth_error data j)
  else nth_error data j.
Proof.
  induction n as [|n IH].
  - reflexivity.
  - rewrite seq_S, fold_left_app; simpl.
    rewrite nth_error_store, IH.
    destruct (Nat.eqb_spec j n) as [->|Hne].
    + rewrite Nat.ltb_irrefl.
      replace (n <? S n)%nat with true by (symmetry; apply Nat.ltb_lt; lia).
      reflexivity.
    + destruct (Nat.ltb_spec j n), (Nat.ltb_spec j (S n)); try lia; reflexivity.
Qed.

Lemma fill_length (f : nat -> float) (l : list nat) (data : list float) :
  length (fold_left (fun d k => store d k (f k)) l data) = length data.
Proof.
  revert data; induction l as [|k l IH]; intros data; simpl; auto.
  rewrite IH; apply store_length.
Qed.

Lemma convert_length (imageData : list byte) :
  length (App.convert imageData) = 784%nat.
Proof.
  unfold App.convert.
  rewrite (fill_length (fun k => App.pixel_value imageData (4 * k))).
  apply repeat_length.
Qed.

Lemma convert_map (imageData : list byte) :
  length imageData = (28 * 28 * 4)%nat ->
  App.convert imageData =
  map (fun k => fround (App.pixel_value imageData (4 * k))) (seq 0 (28 * 28)).
Proof.
  intros Hlen. apply nth_error_ext; intros j.
  unfold App.convert.
  rewrite (nth_error_fill (fun k => App.pixel_value imageData (4 * k))).
  rewrite Hlen.
  replace ((28 * 28 * 4 + 3) / 4)%nat with 784%nat by reflexivity.
  replace (28 * 28)%nat with 784%nat by reflexivity.
  unfold Float32Array.
  rewrite nth_error_map, nth_error_seq.
  destruct (Nat.ltb_spec j 784) as [Hj|Hj].
  - rewrite nth_error_repeat by exact Hj. reflexivity.
  - cbn [option_map]. apply nth_error_None. rewrite repeat_length. exact Hj.
Qed.

(** ** Exhaustive checks of the pixel arithmetic *)

Lemma forallb_zrange (f : Z -> bool) (n : nat) :
  forallb f (zrange n) = true ->
  forall z, (0 <= z < Z.of_nat n)%Z -> f z = true.
Proof.
  intros H z Hz. rewrite forallb_forall in H. apply H.
  unfold zrange. rewrite <- (Z2Nat.id z) by lia.
  apply in_map, in_seq. lia.
Qed.

Lemma byte_val_range (b : byte) : (0 <= byte_val b < 256)%Z.
Proof.
  unfold byte_val. pose proof (Byte.to_N_bounded b). lia.
Qed.

(** Adding two small integers in binary64 is exact. *)
Lemma Z2F_add (a b : Z) :
  (0 <= a < 511)%Z -> (0 <= b < 256)%Z ->
  (Z2F a + Z2F b)%float = Z2F (a + b).
Proof.
  intros Ha Hb.
  assert (H : forallb (fun a => forallb (fun b =>
                PrimFloat.Leibniz.eqb (Z2F a + Z2F b)%float (Z2F (a + b)))
                (zrange 256)) (zrange 511) = true)
    by (vm_compute; reflexivity).
  apply FloatAxioms.Leibniz.eqb_spec.
  apply (forallb_zrange _ _ (forallb_zrange _ _ H a Ha) b Hb).
Qed.

Lemma of_byte_sum (r g b : byte) :
  (of_byte r + of_byte g + of_byte b)%float =
  Z2F (byte_val r + byte_val g + byte_val b).
Proof.
  unfold of_byte.
  pose proof (byte_val_range r); pose proof (byte_val_range g);
    pose proof (byte_val_range b).
  rewrite Z2F_add by lia. rewrite Z2F_add by lia. reflexivity.
Qed.

Lemma tensor_value_in_range (s : Z) :
  (0 <= s < 766)%Z -> in_range (tensor_value s) = true.
Proof.
  intros Hs.
  assert (H : forallb (fun s => in_range (tensor_value s)) (zrange 766) = true)
    by (vm_compute; reflexivity).
  exact (forallb_zrange _ _ H s Hs).
Qed.

Lemma read_in_range (data : list byte) (i : nat) :
  (i < length data)%nat -> exists b, nth_error data i = Some b /\ read data i = of_byte b.
Proof.
  intros Hi. unfold read.
  destruct (nth_error data i) as [b|] eqn:E.
  - exists b; split; reflexivity.
  - apply nth_error_None in E. lia.
Qed.

Lemma pixel_value_sum (data : list byte) (k : nat) :
  (4 * k + 3 < length data)%nat ->
  exists s, (0 <= s < 766)%Z /\
            fround (App.pixel_value data (4 * k)) = tensor_value s.
Proof.
  intros Hk. unfold App.pixel_value.
  destruct (read_in_range data (4 * k)) as (r & _ & ->); [lia|].
  destruct (read_in_range data (4 * k + 1)) as (g & _ & ->); [lia|].
  destruct (read_in_range data (4 * k + 2)) as (b & _ & ->); [lia|].
  exists (byte_val r + byte_val g + byte_val b)%Z.
  pose proof (byte_val_range r); pose proof (byte_val_range g);
    pose proof (byte_val_range b).
  split; [lia|]. rewrite of_byte_sum. reflexivity.
Qed.

(** ** Images of one colour *)

Lemma nth_error_concat_repeat (A : Type) (px : list A) (n k j : nat) :
  (k < n)%nat -> (j < length px)%nat ->
  nth_error (concat (repeat px n)) (length px * k + j) = nth_error px j.
Proof.
  revert k; induction n as [|n IH]; intros k Hk Hj; [lia|].
  simpl. destruct k as [|k].
  - rewrite Nat.mul_0_r. simpl. apply nth_error_app1. exact Hj.
  - rewrite nth_error_app2 by nia.
    replace (length px * S k + j - length px)%nat with (length px * k + j)%nat by nia.
    apply IH; lia.
Qed.

Lemma read_uniform (r g b a : byte) (k j : nat) :
  (k < 784)%nat -> (j < 4)%nat ->
  read (concat (repeat [r; g; b; a] (28 * 28))) (4 * k + j) =
  of_byte (nth j [r; g; b; a] a).
Proof.
  intros Hk Hj. unfold read.
  pose proof (@nth_error_concat_repeat _ [r; g; b; a] (28 * 28) k j) as H.
  cbn [length] in H. rewrite H by (simpl; lia).
  destruct j as [|[|[|[|j]]]]; try reflexivity; lia.
Qed.

Lemma convert_uniform (r g b a : byte) :
  App.convert (concat (repeat [r; g; b; a] (28 * 28))) =
  repeat (tensor_value (byte_val r + byte_val g + byte_val b)) (28 * 28).
Proof.
  rewrite convert_map.
  2:{ rewrite length_concat, map_repeat. simpl length.
      generalize (28 * 28)%nat. intros n. induction n; simpl; lia. }
  apply nth_error_ext; intros j.
  rewrite nth_error_map, nth_error_seq.
  destruct (Nat.ltb_spec j (28 * 28)) as [Hj|Hj].
  - rewrite nth_error_repeat by exact Hj. cbn [option_map Nat.add]. f_equal.
    unfold App.pixel_value, tensor_value.
    rewrite <- (Nat.add_0_r (4 * j)) at 1.
    rewrite !read_uniform by (simpl in Hj; lia).
    cbn [nth]. rewrite of_byte_sum. reflexivity.
  - cbn [option_map]. symmetry. apply nth_error_None. rewrite repeat_length. exact Hj.
Qed.

(** ** The preprocessor *)

(** C7.  When the browser provides a 2D context, the value the preprocessor
    stores for each of the 784 destination pixels is
    [(255 - (R + G + B) / 3) / 255 * 2 - 1], computed in binary64 from the
    first three bytes of the pixel (the alpha byte plays no part) and kept
    in binary32 by the [Float32Array]; an all-white canvas therefore gives
    784 values equal to -1, and an all-black canvas 784 values equal to 1. *)
Theorem preprocessCanvas_formula (P : Platform) (c : Canvas) :
  PlatformLaws P -> getContext2d P = true ->
  (exists data, App.preprocessCanvas P c = Ok data /\
     forall k, (k < 784)%nat ->
       exists r g b,
         nth_error (render P c) (4 * k) = Some r /\
         nth_error (render P c) (4 * k + 1) = Some g /\
         nth_error (render P c) (4 * k + 2) = Some b /\
         nth_error data k =
         Some (fround ((255 - (of_byte r + of_byte g + of_byte b) / 3) / 255 * 2 - 1)%float)) /\
  (uniform [xff; xff; xff; xff] c ->
   App.preprocessCanvas P c = Ok (repeat (-1)%float 784)) /\
  (uniform [x00; x00; x00; xff] c ->
   App.preprocessCanvas P c = Ok (repeat 1%float 784)).
Proof.
  intros HP Hctx. unfold App.preprocessCanvas. rewrite Hctx.
  split; [|split].
  - eexists; split; [reflexivity|]. intros k Hk.
    pose proof (render_length P HP c) as Hlen.
    rewrite convert_map by exact Hlen.
    destruct (nth_error (render P c) (4 * k)) as [r|] eqn:Er;
      [|apply nth_error_None in Er; simpl in Hlen; lia].
    destruct (nth_error (render P c) (4 * k + 1)) as [g|] eqn:Eg;
      [|apply nth_error_None in Eg; simpl in Hlen; lia].
    destruct (nth_error (render P c) (4 * k + 2)) as [b|] eqn:Eb;
      [|apply nth_error_None in Eb; simpl in Hlen; lia].
    exists r, g, b. repeat split.
    rewrite nth_error_map, nth_error_seq.
    replace (k <? 28 * 28)%nat with true by (symmetry; apply Nat.ltb_lt; simpl; lia).
    cbn [option_map Nat.add]. unfold App.pixel_value, read.
    rewrite Er, Eg, Eb. reflexivity.
  - intros Hw. rewrite (render_uniform P HP _ _ _ _ Hw), convert_uniform. reflexivity.
  - intros Hb. rewrite (render_uniform P HP _ _ _ _ Hb), convert_uniform. reflexivity.
Qed.

(** C8.  When the browser provides a 2D context, the preprocessor returns,
    for a canvas of any dimensions and any bytes, a tensor of exactly 784
    values, each of them finite and within [[-1, 1]]. *)
Theorem preprocessCanvas_shape (P : Platform) (c : Canvas) :
  PlatformLaws P -> getContext2d P = true ->
  exists data, App.preprocessCanvas P c = Ok data /\
    length data = 784%nat /\
    Forall (fun v => is_finite v = true /\
                     (-1 <=? v)%float = true /\ (v <=? 1)%float = true) data.
Proof.
  intros HP Hctx. unfold App.preprocessCanvas. rewrite Hctx.
  eexists; split; [reflexivity|]. split; [apply convert_length|].
  pose proof (render_length P HP c) as Hlen.
  rewrite convert_map by exact Hlen.
  apply Forall_map, Forall_forall. intros k Hk. apply in_seq in Hk.
  destruct (pixel_value_sum (render P c) k) as (s & Hs & ->);
    [simpl in *; lia|].
  pose proof (tensor_value_in_range s Hs) as Hr. unfold in_range in Hr.
  apply andb_prop in Hr as [Hr H1]. apply andb_prop in Hr as [Hf Hm].
  auto.
Qed.

(** ** Rounding constants *)

Lemma u_bounds : 0 < u <= 1 / 1000000000000000.
Proof.
  unfold u. replace (2 ^ 53) with (IZR (2 ^ 53)).
  - change (2 ^ 53)%Z with 9007199254740992%Z. lra.
  - rewrite (pow_IZR 2 53). reflexivity.
Qed.

Lemma eta_bounds : 0 < eta <= u.
Proof.
  unfold eta, u.
  assert (H53 : 0 < 2 ^ 53) by (apply pow_lt; lra).
  assert (Hle : 2 ^ 53 <= 2 ^ 1075) by (apply Rle_pow; [lra|lia]).
  split.
  - apply Rinv_0_lt_compat. lra.
  - apply Rinv_le_contravar; assumption.
Qed.

Lemma overflow_threshold : 16 <= 2 ^ 1023.
Proof.
  replace 16 with (2 ^ 4) by (simpl; lra).
  apply Rle_pow; [lra|lia].
Qed.

(** ** Exact arithmetic satisfies the laws *)

Lemma exact_laws : ArithLaws exact.
Proof.
  constructor; simpl.
  - intros x y H; exact H.
  - intros n _; reflexivity.
  - intros x _. replace (x - x) with 0 by ring. rewrite Rabs_R0.
    pose proof u_bounds. pose proof eta_bounds. pose proof (Rabs_pos x). nra.
  - intros a b H; lra.
  - apply exp_0.
  - intros d Hd. split.
    + left; apply exp_pos.
    + rewrite <- exp_0. destruct Hd as [Hd|Hd].
      * left; apply exp_increasing; exact Hd.
      * subst; right; reflexivity.
Qed.

Lemma Rabs_bound (x b : R) : Rabs x <= b -> - b <= x <= b.
Proof. unfold Rabs. destruct (Rcase_abs x); lra. Qed.

(** ** The exponentials of [softmax] *)

Section Softmax.
Context {A : Arith} {HA : ArithLaws A}.

Lemma rnd_0 : rnd 0 = 0.
Proof. apply (rnd_int 0). simpl; lia. Qed.

Lemma rnd_1 : rnd 1 = 1.
Proof. apply (rnd_int 1). simpl; lia. Qed.

Lemma rnd_unit (x : R) : unit_interval x -> unit_interval (rnd x).
Proof.
  intros [H0 H1]. split.
  - rewrite <- rnd_0. apply rnd_mono; exact H0.
  - rewrite <- rnd_1. apply rnd_mono; exact H1.
Qed.

Lemma Math_max_ge_init (x : R) (rest : list R) : x <= Math_max x rest.
Proof.
  unfold Math_max. revert x; induction rest as [|y rest IH]; intros x; simpl.
  - lra.
  - eapply Rle_trans; [apply (Rmax_l x y)|apply IH].
Qed.

Lemma Math_max_ge (x : R) (rest : list R) (y : R) :
  In y rest -> y <= Math_max x rest.
Proof.
  unfold Math_max. revert x; induction rest as [|z rest IH]; intros x Hin; simpl.
  - destruct Hin.
  - destruct Hin as [->|Hin].
    + eapply Rle_trans; [apply (Rmax_r x y)|apply Math_max_ge_init].
    + apply IH; exact Hin.
Qed.

Lemma Math_max_in (x : R) (rest : list R) : In (Math_max x rest) (x :: rest).
Proof.
  unfold Math_max. revert x; induction rest as [|y rest IH]; intros x; simpl.
  - left; reflexivity.
  - destruct (IH (Rmax x y)) as [H|H].
    + rewrite <- H. unfold Rmax. destruct (Rle_dec x y); auto.
    + right; right; exact H.
Qed.

Lemma exps_length (arr : list R) : length (exps arr) = length arr.
Proof. destruct arr; [reflexivity|]. unfold exps. apply length_map. Qed.

Lemma exps_unit (arr : list R) : Forall unit_interval (exps arr).
Proof.
  destruct arr as [|x0 rest]; [constructor|].
  unfold exps. apply Forall_map, Forall_forall. intros x Hx.
  apply Mexp_le0. rewrite <- rnd_0. apply rnd_mono.
  assert (x <= Math_max x0 rest).
  { destruct Hx as [<-|Hx]; [apply Math_max_ge_init|apply Math_max_ge; exact Hx]. }
  lra.
Qed.

Lemma exps_one (arr : list R) : arr <> [] -> In 1 (exps arr).
Proof.
  destruct arr as [|x0 rest]; [congruence|]. intros _.
  unfold exps. apply in_map_iff.
  exists (Math_max x0 rest). split; [|apply Math_max_in].
  replace (Math_max x0 rest - Math_max x0 rest) with 0 by ring.
  rewrite rnd_0. apply Mexp_0.
Qed.

Lemma softmax_unfold (arr : list R) :
  App.softmax arr =
  (sum <- reduce (fun a b => rnd (a + b)) (exps arr) ;;
   Ok (map (fun x => rnd (x / sum)) (exps arr))).
Proof. destruct arr; reflexivity. Qed.

(** *** The rounded sum *)

Lemma Rsum_bounds (l : list R) :
  Forall unit_interval l -> 0 <= Rsum l <= INR (length l).
Proof.
  induction 1 as [|x l [H0 H1] _ IH].
  - simpl; lra.
  - cbn [Rsum fold_right length]. rewrite S_INR. fold (Rsum l). lra.
Qed.

Lemma fsum_nonneg (rest : list R) (acc : R) :
  Forall unit_interval rest -> 0 <= acc ->
  0 <= fold_left (fun a b => rnd (a + b)) rest acc.
Proof.
  intros H; revert acc; induction H as [|b rest [H0 H1] _ IH]; intros acc Hacc.
  - exact Hacc.
  - simpl. apply IH. rewrite <- rnd_0. apply rnd_mono. lra.
Qed.

Lemma fsum_ge_1 (rest : list R) (acc : R) :
  Forall unit_interval rest -> 0 <= acc -> 1 <= acc \/ In 1 rest ->
  1 <= fold_left (fun a b => rnd (a + b)) rest acc.
Proof.
  intros H; revert acc; induction H as [|b rest [H0 H1] _ IH]; intros acc Hacc Hone.
  - destruct Hone as [Hone|[]]; exact Hone.
  - simpl. apply IH.
    + rewrite <- rnd_0. apply rnd_mono. lra.
    + destruct Hone as [Hone|[Hone|Hone]].
      * left. rewrite <- rnd_1. apply rnd_mono. lra.
      * left. rewrite <- rnd_1. apply rnd_mono. lra.
      * right; exact Hone.
Qed.

Lemma delta_pos : 0 < delta.
Proof. unfold delta. pose proof u_bounds. pose proof eta_bounds. lra. Qed.

Lemma fsum_error (rest : list R) (acc T E : R) :
  Forall unit_interval rest ->
  0 <= T -> Rabs (acc - T) <= E ->
  E + INR (length rest) * delta <= 1 ->
  T + Rsum rest <= 10 ->
  Rabs (fold_left (fun a b => rnd (a + b)) rest acc - (T + Rsum rest))
  <= E + INR (length rest) * delta.
Proof.
  intros H; revert acc T E.
  induction H as [|b rest [H0 H1] Hrest IH]; intros acc T E HT Hacc HE Hsum.
  - simpl. rewrite Rplus_0_r, Rmult_0_l, Rplus_0_r. exact Hacc.
  - cbn [fold_left length Rsum fold_right] in *. fold (Rsum rest) in *.
    rewrite S_INR in *.
    pose proof (Rsum_bounds rest Hrest) as [Hs0 _].
    pose proof (pos_INR (length rest)) as Hn.
    pose proof delta_pos as Hd.
    apply Rabs_bound in Hacc.
    assert (Hstep : Rabs (rnd (acc + b) - (acc + b)) <= delta).
    { assert (Hab : Rabs (acc + b) <= 11) by (apply Rabs_le; nra).
      eapply Rle_trans.
      - apply rnd_err. pose proof overflow_threshold. lra.
      - unfold delta. pose proof u_bounds. nra. }
    apply Rabs_bound in Hstep.
    replace (T + (b + Rsum rest)) with ((T + b) + Rsum rest) by ring.
    replace (E + (INR (length rest) + 1) * delta)
      with ((E + delta) + INR (length rest) * delta) by ring.
    apply IH.
    + lra.
    + apply Rabs_le. lra.
    + lra.
    + lra.
Qed.

(** *** The quotients *)

Lemma quotient_unit (l : list R) (sum : R) :
  1 <= sum -> Forall unit_interval l ->
  Forall unit_interval (map (fun x => rnd (x / sum)) l).
Proof.
  intros Hsum Hl. apply Forall_map. eapply Forall_impl; [|exact Hl].
  intros x [H0 H1]. apply rnd_unit. split.
  - apply Rmult_le_pos; [exact H0|]. left. apply Rinv_0_lt_compat. lra.
  - apply (Rmult_le_reg_r sum); [lra|].
    unfold Rdiv. rewrite Rmult_assoc, Rinv_l by lra. lra.
Qed.

Lemma quotient_sum_error (l : list R) (sum : R) :
  1 <= sum -> Forall unit_interval l ->
  Rabs (Rsum (map (fun x => rnd (x / sum)) l) - Rsum l / sum)
  <= INR (length l) * (u + eta).
Proof.
  intros Hsum Hl. induction Hl as [|x l Hx Hl IH].
  - simpl. replace (0 - 0 / sum) with 0 by (unfold Rdiv; ring).
    rewrite Rabs_R0. lra.
  - cbn [map Rsum fold_right length]. fold (Rsum l).
    fold (Rsum (map (fun x => rnd (x / sum)) l)). rewrite S_INR.
    assert (Hq : unit_interval (x / sum)).
    { destruct Hx as [H0 H1]. split.
      - apply Rmult_le_pos; [exact H0|]. left. apply Rinv_0_lt_compat. lra.
      - apply (Rmult_le_reg_r sum); [lra|].
        unfold Rdiv. rewrite Rmult_assoc, Rinv_l by lra. lra. }
    assert (Hstep : Rabs (rnd (x / sum) - x / sum) <= u + eta).
    { eapply Rle_trans.
      - apply rnd_err. pose proof overflow_threshold.
        apply Rabs_le. destruct Hq; lra.
      - assert (Rabs (x / sum) <= 1) by (apply Rabs_le; destruct Hq; lra).
        pose proof u_bounds. pose proof (Rabs_pos (x / sum)). nra. }
    apply Rabs_bound in Hstep. apply Rabs_bound in IH.
    apply Rabs_le.
    replace ((x + Rsum l) / sum) with (x / sum + Rsum l / sum)
      by (unfold Rdiv; ring).
    lra.
Qed.

(** *** Softmax returns a distribution *)

(** C1.  For every vector of ten finite scores [softmax] returns ten
    numbers, each within [[0, 1]], whose sum is within [1e-6] of 1: in every
    arithmetic that meets the laws of binary64 rounding, exact arithmetic
    included. *)
Theorem softmax_distribution (arr : list R) :
  length arr = 10%nat ->
  exists ps, App.softmax arr = Ok ps /\
    length ps = 10%nat /\
    Forall unit_interval ps /\
    Rabs (Rsum ps - 1) <= 1 / 1000000.
Proof.
  intros Hlen. rewrite softmax_unfold.
  pose proof (exps_length arr) as Hel. rewrite Hlen in Hel.
  pose proof (exps_unit arr) as Hunit.
  assert (Hne : arr <> []) by (intros ->; discriminate).
  pose proof (exps_one arr Hne) as Hone.
  destruct (exps arr) as [|a t] eqn:Ee; [discriminate|].
  cbn [reduce bind].
  set (sum := fold_left (fun a b => rnd (a + b)) t a).
  inversion Hunit as [|? ? Ha Ht]; subst.
  assert (Hsum1 : 1 <= sum).
  { apply fsum_ge_1; [exact Ht|destruct Ha; lra|].
    destruct Hone as [->|Hone]; [left; lra|right; exact Hone]. }
  pose proof (Rsum_bounds (a :: t) Hunit) as HT.
  rewrite Hel in HT. cbn [Rsum fold_right] in HT. fold (Rsum t) in HT.
  replace (INR 10) with 10 in HT by (simpl; lra).
  assert (Hlt : length t = 9%nat) by (simpl in Hel; lia).
  pose proof delta_pos as Hd.
  assert (Hdelta : delta <= 12 / 1000000000000000).
  { unfold delta. pose proof u_bounds. pose proof eta_bounds. lra. }
  assert (Herr : Rabs (sum - (a + Rsum t)) <= 0 + INR (length t) * delta).
  { apply fsum_error.
    - exact Ht.
    - destruct Ha; lra.
    - replace (a - a) with 0 by ring. rewrite Rabs_R0. lra.
    - rewrite Hlt. replace (INR 9) with 9 by (simpl; lra). lra.
    - lra. }
  rewrite Hlt in Herr. replace (INR 9) with 9 in Herr by (simpl; lra).
  eexists; split; [reflexivity|]. split; [|split].
  - rewrite length_map. exact Hel.
  - apply quotient_unit; assumption.
  - pose proof (quotient_sum_error (a :: t) sum Hsum1 Hunit) as Hq.
    rewrite Hel in Hq. replace (INR 10) with 10 in Hq by (simpl; lra).
    cbn [Rsum fold_right] in Hq. fold (Rsum t) in Hq.
    change (fold_right Rplus 0 (map (fun x => rnd (x / sum)) (a :: t)))
      with (Rsum (map (fun x => rnd (x / sum)) (a :: t))) in Hq.
    apply Rabs_bound in Hq. apply Rabs_bound in Herr.
    assert (Hratio : - (9 * delta) <= (a + Rsum t) / sum - 1 <= 9 * delta).
    { replace ((a + Rsum t) / sum - 1) with ((a + Rsum t - sum) / sum)
        by (field; lra).
      assert (Hinv : 0 < / sum <= 1).
      { split; [apply Rinv_0_lt_compat; lra|].
        rewrite <- Rinv_1. apply Rinv_le_contravar; lra. }
      unfold Rdiv. split; nra. }
    apply Rabs_le. pose proof u_bounds. pose proof eta_bounds. lra.
Qed.
End Softmax.

(** ** Sorting *)

Section Sort.
Context {T : Type} (comparefn : T -> T -> R).

Lemma insert_perm (x : T) (arr : list T) :
  Permutation (insert comparefn x arr) (x :: arr).
Proof.
  induction arr as [|y rest IH]; simpl.
  - apply Permutation_refl.
  - destruct (Rlt_dec 0 (comparefn x y)).
    + eapply perm_trans; [apply perm_skip, IH|apply perm_swap].
    + apply Permutation_refl.
Qed.

Lemma sort_perm (arr : list T) : Permutation (sort comparefn arr) arr.
Proof.
  induction arr as [|x rest IH]; simpl.
  - apply perm_nil.
  - eapply perm_trans; [apply insert_perm|apply perm_skip, IH].
Qed.

(** Where every comparison is a tie the array stays as it is. *)
Lemma sort_ties (arr : list T) :
  (forall x y, In x arr -> In y arr -> ~ 0 < comparefn x y) ->
  sort comparefn arr = arr.
Proof.
  induction arr as [|x rest IH]; intros Hties; simpl; [reflexivity|].
  rewrite IH by (intros a b Ha Hb; apply Hties; right; assumption).
  destruct rest as [|y rest']; simpl; [reflexivity|].
  destruct (Rlt_dec 0 (comparefn x y)) as [Hlt|_]; [|reflexivity].
  exfalso. apply (Hties x y); simpl; auto.
Qed.

(** An element that compares above every other one goes last. *)
Lemma insert_last (x : T) (arr : list T) :
  (forall y, In y arr -> 0 < comparefn x y) ->
  insert comparefn x arr = arr ++ [x].
Proof.
  induction arr as [|y rest IH]; intros Hall; simpl; [reflexivity|].
  destruct (Rlt_dec 0 (comparefn x y)) as [_|Hn].
  - rewrite IH by (intros z Hz; apply Hall; right; exact Hz). reflexivity.
  - exfalso. apply Hn, Hall. left; reflexivity.
Qed.
End Sort.

(** ** The ranking *)

Lemma mapi_from_digits (i : nat) (ps : list R) :
  map App.digit (mapi_from entry i ps) = seq i (length ps).
Proof.
  revert i; induction ps as [|p ps IH]; intros i; simpl; [reflexivity|].
  rewrite IH; reflexivity.
Qed.

Lemma mapi_from_length (T : Type) (f : R -> nat -> T) (i : nat) (ps : list R) :
  length (mapi_from f i ps) = length ps.
Proof.
  revert i; induction ps as [|p ps IH]; intros i; simpl; [reflexivity|].
  rewrite IH; reflexivity.
Qed.

Lemma mapi_from_entry (i k : nat) (ps : list R) (p : R) :
  nth_error ps k = Some p -> In (entry p (i + k)) (mapi_from entry i ps).
Proof.
  revert i k; induction ps as [|q ps IH]; intros i k Hk; [destruct k; discriminate|].
  destruct k as [|k]; simpl in Hk.
  - injection Hk as ->. left. rewrite Nat.add_0_r. reflexivity.
  - right. replace (i + S k)%nat with (S i + k)%nat by lia. apply IH. exact Hk.
Qed.

Lemma mapi_from_In (i : nat) (ps : list R) (e : App.Prediction) :
  In e (mapi_from entry i ps) ->
  (i <= App.digit e)%nat /\
  nth_error ps (App.digit e - i) = Some (App.probability e).
Proof.
  revert i; induction ps as [|p ps IH]; intros i Hin; simpl in Hin; [destruct Hin|].
  destruct Hin as [<-|Hin].
  - simpl. rewrite Nat.sub_diag. split; [lia|reflexivity].
  - destruct (IH _ Hin) as [Hle Hnth]. split; [lia|].
    replace (App.digit e - i)%nat with (S (App.digit e - S i)) by lia.
    exact Hnth.
Qed.

Section Ranking.
Context {A : Arith} {HA : ArithLaws A}.

(** The comparator is positive exactly when its second argument has the
    higher probability. *)
Lemma by_probability_sign (a b : App.Prediction) :
  representable (App.probability a) ->
  representable (App.probability b) ->
  0 < by_probability a b <-> App.probability a < App.probability b.
Proof.
  intros [x Hx] [y Hy]. unfold by_probability. split.
  - intros Hpos. destruct (Rlt_le_dec (App.probability a) (App.probability b))
      as [Hlt|Hle]; [exact Hlt|exfalso].
    assert (rnd (App.probability b - App.probability a) <= 0).
    { rewrite <- (rnd_0 (HA := HA)). apply rnd_mono. lra. }
    lra.
  - intros Hlt. rewrite Hx, Hy. apply rnd_sub. rewrite <- Hx, <- Hy. exact Hlt.
Qed.

Lemma insert_sorted (x : App.Prediction) (arr : list App.Prediction) :
  StronglySorted ranked_before arr ->
  representable (App.probability x) ->
  Forall (fun y => (App.digit x < App.digit y)%nat /\
                   representable (App.probability y)) arr ->
  StronglySorted ranked_before (insert by_probability x arr).
Proof.
  intros Hs Hx Hall. induction Hs as [|y rest Hrest IH Hy]; simpl.
  - constructor; constructor.
  - inversion Hall as [|? ? [Hdy Hry] Hall']; subst.
    destruct (Rlt_dec 0 (by_probability x y)) as [Hgt|Hngt].
    + apply by_probability_sign in Hgt; [|assumption|assumption].
      constructor; [apply IH; exact Hall'|].
      eapply Permutation_Forall; [apply Permutation_sym, insert_perm|].
      constructor; [left; exact Hgt|exact Hy].
    + assert (Hle : App.probability y <= App.probability x).
      { destruct (Rlt_le_dec (App.probability x) (App.probability y))
          as [Hlt|Hle]; [|exact Hle].
        exfalso. apply Hngt. apply by_probability_sign; assumption. }
      constructor; [constructor; assumption|].
      constructor.
      * destruct Hle as [Hlt|Heq]; [left; exact Hlt|right; split; [symmetry; exact Heq|exact Hdy]].
      * rewrite Forall_forall in *. intros z Hz.
        destruct (Hy z Hz) as [Hzy|[Hzy _]]; destruct (Hall' z Hz) as [Hdz _].
        -- left; lra.
        -- destruct Hle as [Hlt|Heq]; [left; lra|right; split; [congruence|exact Hdz]].
Qed.

Lemma sort_sorted (i : nat) (ps : list R) :
  Forall representable ps ->
  StronglySorted ranked_before (sort by_probability (mapi_from entry i ps)).
Proof.
  intros Hps; revert i; induction Hps as [|p ps Hp Hps IH]; intros i; simpl.
  - constructor.
  - apply insert_sorted; [apply IH|exact Hp|].
    eapply Permutation_Forall; [apply Permutation_sym, sort_perm|].
    apply Forall_forall. intros e He. split.
    + apply mapi_from_In in He. simpl. lia.
    + apply mapi_from_In in He. destruct He as [_ He].
      apply nth_error_In in He. rewrite Forall_forall in Hps. apply Hps, He.
Qed.

(** Strictly increasing probabilities are ranked in reverse. *)
Lemma sort_increasing (i : nat) (ps : list R) :
  Forall representable ps ->
  StronglySorted Rlt ps ->
  sort by_probability (mapi_from entry i ps) = rev (mapi_from entry i ps).
Proof.
  intros Hrep Hinc; revert i.
  induction Hinc as [|p ps Hinc IH Hp]; intros i; [reflexivity|].
  inversion Hrep as [|? ? Hrp Hrps]; subst.
  cbn [mapi_from sort fold_right rev]. fold (sort by_probability (mapi_from entry (S i) ps)).
  rewrite IH by exact Hrps. apply insert_last.
  intros y Hy. apply in_rev, mapi_from_In in Hy. destruct Hy as [_ Hy].
  apply nth_error_In in Hy.
  rewrite Forall_forall in Hp, Hrps.
  apply by_probability_sign; [exact Hrp|apply Hrps, Hy|apply Hp, Hy].
Qed.
End Ranking.

(** ** [predict] *)

Section Predict.
Context {A : Arith}.

Lemma predict_updates (E : Env) (st : App.State) (outputData : list R)
      (r : list App.Prediction) :
  inference E st (Ok outputData) ->
  App.ranking outputData = Ok r ->
  App.predict E st = App.setPredictions r st.
Proof.
  intros (run & canvas & Hs & Hc & Hctx & Hrun) Hr.
  unfold App.predict, bindM, get. rewrite Hs, Hc.
  unfold try_catch, lift, App.preprocessCanvas. rewrite Hctx.
  unfold new_Tensor. rewrite convert_length.
  change (Nat.eqb (fold_right Nat.mul 1%nat [1; 1; 28; 28]%nat) 784) with true.
  cbv beta iota. rewrite Hrun, Hr. reflexivity.
Qed.

Lemma predict_logs (E : Env) (st : App.State) (outcome : result (list R))
      (error : exn) :
  inference E st outcome ->
  (outcome <- outcome ;; App.ranking outcome) = Throw error ->
  App.predict E st =
  App.console_write (ConsoleError "Prediction error:" error) st.
Proof.
  intros (run & canvas & Hs & Hc & Hctx & Hrun) Hr.
  unfold App.predict, bindM, get. rewrite Hs, Hc.
  unfold try_catch, lift, App.preprocessCanvas. rewrite Hctx.
  unfold new_Tensor. rewrite convert_length.
  change (Nat.eqb (fold_right Nat.mul 1%nat [1; 1; 28; 28]%nat) 784) with true.
  cbv beta iota. rewrite Hrun. destruct outcome as [outputData|e]; cbn [bind] in Hr.
  - rewrite Hr. reflexivity.
  - inversion Hr; subst. reflexivity.
Qed.
End Predict.

Section RankingFacts.
Context {A : Arith}.

Lemma softmax_nonempty (arr : list R) :
  arr <> [] ->
  exists sum, App.softmax arr = Ok (map (fun x => rnd (x / sum)) (exps arr)).
Proof.
  intros Hne. rewrite softmax_unfold.
  pose proof (exps_length arr) as Hlen.
  destruct (exps arr) as [|a t].
  - destruct arr; [congruence|discriminate].
  - eexists. reflexivity.
Qed.

Lemma softmax_representable (arr ps : list R) :
  App.softmax arr = Ok ps -> length ps = length arr /\ Forall representable ps.
Proof.
  rewrite softmax_unfold. pose proof (exps_length arr) as Hlen.
  destruct (exps arr) as [|a t]; [discriminate|].
  cbn [reduce bind]. intros H.
  assert (Hps : ps = map (fun x => rnd (x / fold_left (fun a b => rnd (a + b)) t a))
                         (a :: t)) by congruence.
  rewrite Hps. split.
  - rewrite length_map. exact Hlen.
  - apply Forall_map, Forall_forall. intros x _. eexists; reflexivity.
Qed.

Lemma ranking_unfold (outputData : list R) :
  App.ranking outputData =
  (softmaxOutput <- App.softmax outputData ;;
   Ok (sort by_probability (mapi_from entry 0 softmaxOutput))).
Proof. reflexivity. Qed.

Lemma ranking_digits (ps : list R) :
  Permutation (map App.digit (sort by_probability (mapi_from entry 0 ps)))
              (seq 0 (length ps)).
Proof.
  rewrite <- mapi_from_digits. apply Permutation_map, sort_perm.
Qed.
End RankingFacts.

(** C2.  For every vector of ten scores on which the inference settles,
    [predict] leaves ten predictions: each softmax output is there, paired
    with its index, every prediction is such a pair (of a digit below 10),
    and the predictions are sorted by decreasing probability, the lower
    digit first among equal probabilities. *)
Theorem predict_ranking_sorted (A : Arith) (HA : ArithLaws A)
        (E : Env) (st : App.State) (scores : list R) :
  inference E st (Ok scores) ->
  length scores = 10%nat ->
  exists softmaxOutput,
    App.softmax scores = Ok softmaxOutput /\
    length softmaxOutput = 10%nat /\
    let ranking := App.predictions (exec (App.predict E) st) in
    length ranking = 10%nat /\
    (forall i p, nth_error softmaxOutput i = Some p -> In (entry p i) ranking) /\
    (forall e, In e ranking ->
       (App.digit e < 10)%nat /\
       nth_error softmaxOutput (App.digit e) = Some (App.probability e)) /\
    StronglySorted ranked_before ranking.
Proof.
  intros Hinf Hlen.
  destruct (softmax_nonempty scores) as [sum Hsm]; [intros ->; discriminate|].
  eexists; split; [exact Hsm|].
  destruct (softmax_representable _ _ Hsm) as [Hl Hrep].
  split; [rewrite Hl; exact Hlen|].
  cbv zeta. unfold exec.
  rewrite (predict_updates E st scores _ Hinf)
    by (rewrite ranking_unfold, Hsm; reflexivity).
  cbn [App.setPredictions modify snd App.predictions]. split; [|split; [|split]].
  - rewrite (Permutation_length (sort_perm by_probability _)), mapi_from_length, Hl.
    exact Hlen.
  - intros i p Hi.
    apply (Permutation_in _ (Permutation_sym (sort_perm by_probability _))).
    apply (mapi_from_entry 0 i). exact Hi.
  - intros e He.
    apply (Permutation_in _ (sort_perm by_probability _)) in He.
    apply mapi_from_In in He. destruct He as [_ He].
    rewrite Nat.sub_0_r in He. split; [|exact He].
    rewrite <- Hlen, <- Hl. apply nth_error_Some. rewrite He. discriminate.
  - apply sort_sorted; assumption.
Qed.

(** ** Shifted and constant scores *)

Lemma Rmax_shift (a b c : R) : Rmax (a + c) (b + c) = Rmax a b + c.
Proof. unfold Rmax. destruct (Rle_dec (a + c) (b + c)), (Rle_dec a b); lra. Qed.

Lemma Math_max_shift (x c : R) (rest : list R) :
  Math_max (x + c) (map (fun y => y + c) rest) = Math_max x rest + c.
Proof.
  unfold Math_max. revert x; induction rest as [|y rest IH]; intros x; simpl.
  - reflexivity.
  - rewrite Rmax_shift. apply IH.
Qed.

Lemma Math_max_repeat (x : R) (n : nat) : Math_max x (repeat x n) = x.
Proof.
  unfold Math_max. induction n as [|n IH]; simpl; [reflexivity|].
  unfold Rmax at 2. destruct (Rle_dec x x); exact IH.
Qed.

Lemma eta_small : eta <= u / 2.
Proof.
  unfold eta, u.
  assert (H54 : 0 < 2 ^ 54) by (apply pow_lt; lra).
  assert (Hle : 2 ^ 54 <= 2 ^ 1075) by (apply Rle_pow; [lra|lia]).
  replace (/ 2 ^ 53 / 2) with (/ 2 ^ 54).
  - apply Rinv_le_contravar; assumption.
  - change (2 ^ 54) with (2 * 2 ^ 53). field; apply pow_nonzero; lra.
Qed.

Section Shift.
Context {A : Arith}.

Lemma exps_shift (arr : list R) (c : R) :
  exps (map (fun x => x + c) arr) = exps arr.
Proof.
  destruct arr as [|x0 rest]; [reflexivity|].
  change (exps (map (fun x => x + c) (x0 :: rest)))
    with (map (fun x => Mexp (rnd (x - Math_max (x0 + c) (map (fun x => x + c) rest))))
              (map (fun x => x + c) (x0 :: rest))).
  unfold exps. rewrite Math_max_shift, map_map. apply map_ext. intros x.
  f_equal. f_equal. ring.
Qed.

Lemma softmax_shift (arr : list R) (c : R) :
  App.softmax (map (fun x => x + c) arr) = App.softmax arr.
Proof. rewrite !softmax_unfold, exps_shift. reflexivity. Qed.

Context {HA : ArithLaws A}.

Lemma exps_repeat (x : R) (n : nat) : exps (repeat x (S n)) = repeat 1 (S n).
Proof.
  cbn [repeat]. unfold exps. rewrite Math_max_repeat.
  change (x :: repeat x n) with (repeat x (S n)).
  rewrite map_repeat.
  replace (x - x) with 0 by ring. rewrite rnd_0, Mexp_0. reflexivity.
Qed.

Lemma softmax_repeat (x : R) :
  App.softmax (repeat x 10) = Ok (repeat (rnd (1 / 10)) 10).
Proof.
  rewrite softmax_unfold, exps_repeat. cbn [repeat reduce fold_left bind].
  repeat match goal with
  | |- context [rnd (IZR ?a + 1)] =>
      replace (IZR a + 1) with (IZR (a + 1)) by (rewrite plus_IZR; reflexivity);
      rewrite (rnd_int (a + 1)) by (simpl; lia); simpl (a + 1)%Z
  end.
  reflexivity.
Qed.
End Shift.

Lemma pow_2_60 : 2 ^ 60 = 1152921504606846976.
Proof. rewrite (pow_IZR 2 60). reflexivity. Qed.

Lemma pow_2_53 : 2 ^ 53 = 9007199254740992.
Proof. rewrite (pow_IZR 2 53). reflexivity. Qed.

Lemma coarse_cases (x : R) :
  (x < 2 ^ 60 \/ 2 ^ 60 + 16 < x) /\ rnd (Arith := coarse) x = x \/
  2 ^ 60 <= x <= 2 ^ 60 + 16 /\ rnd (Arith := coarse) x = 2 ^ 60.
Proof.
  cbn [rnd coarse].
  destruct (Rle_dec (2 ^ 60) x) as [H1|H1].
  - destruct (Rle_dec x (2 ^ 60 + 16)) as [H2|H2].
    + right. repeat split; assumption.
    + left. split; [right; lra|reflexivity].
  - left. split; [left; lra|reflexivity].
Qed.

Lemma coarse_small (x : R) : x < 2 ^ 60 -> rnd (Arith := coarse) x = x.
Proof. intros Hx. destruct (coarse_cases x) as [[_ H]|[H _]]; [exact H|lra]. Qed.

Lemma coarse_plateau (x : R) :
  0 <= x <= 16 -> rnd (Arith := coarse) (x + 2 ^ 60) = 2 ^ 60.
Proof.
  intros Hx. destruct (coarse_cases (x + 2 ^ 60)) as [[H _]|[_ H]]; [lra|exact H].
Qed.

Lemma coarse_laws : ArithLaws coarse.
Proof.
  pose proof pow_2_60 as HT. pose proof pow_2_53 as H53.
  constructor.
  - intros x y Hxy.
    destruct (coarse_cases x) as [[Hx ->]|[Hx ->]],
             (coarse_cases y) as [[Hy ->]|[Hy ->]]; lra.
  - intros n Hn. apply coarse_small.
    assert (H : IZR n <= IZR (2 ^ 53)) by (apply IZR_le; lia).
    change (2 ^ 53)%Z with 9007199254740992%Z in H. lra.
  - intros x _. pose proof eta_bounds as He.
    destruct (coarse_cases x) as [[_ ->]|[Hx ->]].
    + replace (x - x) with 0 by ring. rewrite Rabs_R0.
      pose proof (Rabs_pos x). pose proof u_bounds. nra.
    + rewrite (Rabs_pos_eq x) by lra.
      rewrite Rabs_minus_sym, Rabs_pos_eq by lra.
      assert (Hu : u * 2 ^ 60 = 128).
      { unfold u. rewrite HT, H53. lra. }
      assert (0 < u) by apply u_bounds. nra.
  - intros a b Hab.
    destruct (coarse_cases (rnd (Arith := coarse) b - rnd (Arith := coarse) a))
      as [[_ ->]|[_ ->]]; lra.
  - apply exp_0.
  - intros d Hd. cbn [Mexp coarse]. split; [left; apply exp_pos|].
    rewrite <- exp_0. destruct Hd as [Hd|Hd].
    + left. apply exp_increasing. exact Hd.
    + subst. right. reflexivity.
Qed.

Lemma ranking_repeat (A : Arith) (HA : ArithLaws A) (x : R) :
  App.ranking (repeat x 10) = Ok (map (entry (rnd (1 / 10))) (seq 0 10)).
Proof.
  rewrite ranking_unfold, softmax_repeat. cbn [bind]. f_equal.
  rewrite sort_ties; [reflexivity|].
  intros a b Ha Hb. apply mapi_from_In in Ha, Hb.
  destruct Ha as [_ Ha], Hb as [_ Hb].
  apply nth_error_In, repeat_spec in Ha, Hb.
  unfold by_probability. rewrite Ha, Hb.
  replace (rnd (1 / 10) - rnd (1 / 10)) with 0 by ring.
  rewrite rnd_0. lra.
Qed.

(** C3.  Adding one constant [c] to all ten scores leaves the ranking as it
    is whenever no sum [x + c] is rounded, that is, whenever the shifted
    scores are binary64 numbers themselves; ten equal scores give the digits
    0 to 9 in order, each with the probability [1 / 10] as binary64 holds
    it, which is within [u] of [1 / 10]. *)
Theorem ranking_shift_invariant (A : Arith) (HA : ArithLaws A) :
  (forall scores c, length scores = 10%nat ->
     (forall x, In x scores -> rnd (x + c) = x + c) ->
     shift_invariant A scores c) /\
  (forall x, App.ranking (repeat x 10) =
             Ok (map (entry (rnd (1 / 10))) (seq 0 10))) /\
  Rabs (rnd (1 / 10) - 1 / 10) <= u.
Proof.
  split; [|split].
  - intros scores c _ Hexact. unfold shift_invariant, shifted.
    rewrite (map_ext_in _ (fun x => x + c) scores Hexact).
    rewrite !ranking_unfold, softmax_shift. reflexivity.
  - intros x. apply ranking_repeat. exact HA.
  - eapply Rle_trans.
    + apply rnd_err. pose proof overflow_threshold.
      apply Rabs_le. lra.
    + rewrite (Rabs_pos_eq (1 / 10)) by lra.
      pose proof eta_small. pose proof u_bounds. lra.
Qed.

(** ** The two variants *)

Lemma variant_preprocess (P : Platform) (canvas : Canvas) :
  App.preprocessCanvas P canvas = Unguarded.preprocessCanvas P canvas.
Proof. reflexivity. Qed.

Lemma variant_softmax (A : Arith) (arr : list R) :
  App.softmax arr = Unguarded.softmax arr.
Proof. reflexivity. Qed.

Lemma variant_digits (i : nat) (ps : list R) :
  map Unguarded.digit (mapi_from variant_entry i ps) = seq i (length ps).
Proof.
  revert i; induction ps as [|p ps IH]; intros i; simpl; [reflexivity|].
  rewrite IH; reflexivity.
Qed.

Lemma variant_predict_updates (A : Arith) (E : Env) (st : Unguarded.State)
      (outputData : list R) (r : list Unguarded.Prediction) :
  variant_inference E st (Ok outputData) ->
  Unguarded.ranking outputData = Ok r ->
  Unguarded.predict E st = Unguarded.setPredictions r st.
Proof.
  intros (run & canvas & Hs & Hc & Hctx & Hrun) Hr.
  unfold Unguarded.predict, bindM, get. rewrite Hs, Hc.
  unfold try_catch, lift, Unguarded.preprocessCanvas. rewrite Hctx.
  unfold new_Tensor. change (Unguarded.convert) with (App.convert) in *.
  rewrite convert_length.
  change (Nat.eqb (fold_right Nat.mul 1%nat [1; 1; 28; 28]%nat) 784) with true.
  cbv beta iota. rewrite Hrun, Hr. reflexivity.
Qed.

(** C9.  In both variants, for every vector of ten scores on which the
    inference settles, [predict] leaves ten predictions whose digits are a
    permutation of 0 to 9. *)
Theorem predict_ranking_digits (A : Arith) :
  (forall E st scores,
     inference E st (Ok scores) -> length scores = 10%nat ->
     let ranking := App.predictions (exec (App.predict E) st) in
     length ranking = 10%nat /\
     Permutation (map App.digit ranking) (seq 0 10)) /\
  (forall E st scores,
     variant_inference E st (Ok scores) -> length scores = 10%nat ->
     let ranking := Unguarded.predictions (exec (Unguarded.predict E) st) in
     length ranking = 10%nat /\
     Permutation (map Unguarded.digit ranking) (seq 0 10)).
Proof.
  split; intros E st scores Hinf Hlen; cbv zeta; unfold exec;
    (destruct (softmax_nonempty scores) as [sum Hsm]; [intros ->; discriminate|]);
    destruct (softmax_representable _ _ Hsm) as [Hl _]; rewrite Hlen in Hl.
  - rewrite (predict_updates E st scores _ Hinf)
      by (rewrite ranking_unfold, Hsm; reflexivity).
    cbn [App.setPredictions modify snd App.predictions].
    set (ps := map _ (exps scores)) in *.
    pose proof (ranking_digits ps) as Hperm. rewrite Hl in Hperm.
    split; [|exact Hperm].
    apply Permutation_length in Hperm.
    rewrite length_map, length_seq in Hperm. exact Hperm.
  - rewrite (variant_predict_updates A E st scores _ Hinf)
      by (unfold Unguarded.ranking; rewrite <- variant_softmax, Hsm; reflexivity).
    cbn [Unguarded.setPredictions modify snd Unguarded.predictions].
    set (ps := map _ (exps scores)) in *.
    assert (Hperm : Permutation
              (map Unguarded.digit
                 (sort (fun a b => rnd (Unguarded.probability b - Unguarded.probability a))
                       (mapi_from variant_entry 0 ps)))
              (seq 0 10)).
    { rewrite <- Hl, <- variant_digits. apply Permutation_map, sort_perm. }
    split; [|exact Hperm].
    apply Permutation_length in Hperm.
    rewrite length_map, length_seq in Hperm. exact Hperm.
Qed.

(** C10.  The two variants compute the same tensor from every canvas and
    the same softmax output from every array. *)
Theorem variants_agree (A : Arith) :
  (forall P canvas,
     App.preprocessCanvas P canvas = Unguarded.preprocessCanvas P canvas) /\
  (forall arr, App.softmax arr = Unguarded.softmax arr).
Proof.
  split.
  - intros P canvas. unfold App.preprocessCanvas, Unguarded.preprocessCanvas.
    destruct (getContext2d P); reflexivity.
  - intros arr. unfold App.softmax, Unguarded.softmax. reflexivity.
Qed.

(** ** The simple scaler meets the platform laws *)

Lemma sample_length (c : Canvas) (k : nat) : length (sample c k) = 4%nat.
Proof. unfold sample. destruct (Byte.eqb _ _); reflexivity. Qed.

Lemma concat_map_length4 (f : nat -> list byte) (l : list nat) :
  (forall k, length (f k) = 4%nat) ->
  length (concat (map f l)) = (length l * 4)%nat.
Proof.
  intros Hf. induction l as [|k l IH]; simpl; [reflexivity|].
  rewrite length_app, Hf, IH. reflexivity.
Qed.

Lemma sample_uniform (c : Canvas) (r g b : byte) (k : nat) :
  uniform [r; g; b; xff] c -> (k < 28 * 28)%nat ->
  sample c k = [r; g; b; xff].
Proof.
  intros [Hpos Hpx] Hk. unfold sample.
  set (x := (k mod 28 * width c / 28)%nat).
  set (y := (k / 28 * height c / 28)%nat).
  assert (Hw : (0 < width c)%nat) by nia.
  assert (Hh : (0 < height c)%nat) by nia.
  assert (Hx : (x < width c)%nat).
  { unfold x. apply Nat.Div0.div_lt_upper_bound.
    pose proof (Nat.mod_upper_bound k 28). nia. }
  assert (Hy : (y < height c)%nat).
  { unfold y. apply Nat.Div0.div_lt_upper_bound.
    assert (k / 28 < 28)%nat by (apply Nat.Div0.div_lt_upper_bound; simpl in Hk; lia).
    nia. }
  assert (Hidx : (y * width c + x < width c * height c)%nat) by nia.
  assert (Hch : forall j, (j < 4)%nat ->
            nth (4 * (y * width c + x) + j) (pixels c) x00 = nth j [r; g; b; xff] x00).
  { intros j Hj. rewrite Hpx.
    pose proof (@nth_error_concat_repeat _ [r; g; b; xff]
                  (width c * height c) (y * width c + x) j Hidx) as H.
    cbn [length] in H. specialize (H Hj).
    destruct j as [|[|[|[|j]]]]; [| | | |lia];
      cbn [nth_error] in H; rewrite (nth_error_nth _ _ x00 H); reflexivity. }
  rewrite !Hch by lia. reflexivity.
Qed.

Lemma nearest_laws : PlatformLaws nearest.
Proof.
  constructor; unfold nearest; cbn [render].
  - intros c. rewrite concat_map_length4 by apply sample_length.
    rewrite length_seq. reflexivity.
  - intros c r g b Hu.
    rewrite (map_ext_in (sample c) (fun _ => [r; g; b; xff])).
    + rewrite <- (length_seq 0 (28 * 28)) at 2.
      induction (seq 0 (28 * 28)) as [|k l IH]; [reflexivity|].
      cbn [map concat length repeat]. rewrite IH. reflexivity.
    + intros k Hk. apply in_seq in Hk. apply sample_uniform; [exact Hu|lia].
Qed.

Lemma white_canvas_uniform : uniform [xff; xff; xff; xff] white_canvas.
Proof. split; [simpl; lia|reflexivity]. Qed.

Lemma drawn_inference (E : Env) (run : App.Session) :
  getContext2d (platform E) = true ->
  inference E (drawn run)
    (run {| tensor_data := App.convert (render (platform E) white_canvas);
            dims := [1; 1; 28; 28]%nat |}).
Proof.
  intros Hctx. exists run, white_canvas. repeat split; try reflexivity. exact Hctx.
Qed.

(** ** Failures *)

(** C4 as it is worded fails: a vector of three scores is ranked, and
    nothing is reported. *)
Lemma short_vector_ranked :
  ~ wrong_length_rejected exact failing_network (drawn (returns [0; 0; 0])).
Proof.
  intros H.
  destruct (H [0; 0; 0] (drawn_inference failing_network _ eq_refl))
    as [Hp _]; [simpl; lia|].
  destruct (softmax_nonempty (A := exact) [0; 0; 0]) as [sum Hsm]; [discriminate|].
  unfold exec in Hp.
  rewrite (predict_updates failing_network _ [0; 0; 0] _
             (drawn_inference failing_network _ eq_refl))
    in Hp by (rewrite ranking_unfold, Hsm; reflexivity).
  cbn [App.setPredictions modify snd App.predictions drawn] in Hp.
  apply (f_equal (@length _)) in Hp.
  rewrite (Permutation_length (sort_perm _ _)) in Hp.
  discriminate Hp.
Qed.

(** C4, amended.  [predict] ranks every non-empty score vector whatever its
    length, one prediction per score, and reports nothing; on an empty score
    vector [softmax] throws (reduce of an empty array), the predictions stay
    as they were and the error goes to the console. *)
Theorem predict_any_length (A : Arith) (E : Env) (st : App.State)
        (scores : list R) :
  inference E st (Ok scores) ->
  let st' := exec (App.predict E) st in
  (scores <> [] ->
   (exists r, App.ranking scores = Ok r /\
              st' = exec (App.setPredictions r) st) /\
   length (App.predictions st') = length scores /\
   App.console st' = App.console st /\
   App.saveMessage st' = App.saveMessage st) /\
  (scores = [] ->
   st' = exec (App.console_write
                 (ConsoleError "Prediction error:"
                    (TypeError "Reduce of empty array with no initial value")))
              st /\
   App.predictions st' = App.predictions st /\
   App.view st' = App.view st).
Proof.
  intros Hinf. cbv zeta. unfold exec. split.
  - intros Hne. destruct (softmax_nonempty scores Hne) as [sum Hsm].
    destruct (softmax_representable _ _ Hsm) as [Hl _].
    assert (Hr : App.ranking scores =
                 Ok (sort by_probability
                          (mapi_from entry 0 (map (fun x => rnd (x / sum)) (exps scores)))))
      by (rewrite ranking_unfold, Hsm; reflexivity).
    rewrite (predict_updates E st scores _ Hinf Hr).
    split; [eexists; split; [exact Hr|reflexivity]|].
    cbn [App.setPredictions modify snd App.predictions App.console App.saveMessage].
    split; [|split; reflexivity].
    rewrite (Permutation_length (sort_perm _ _)).
    rewrite <- Hl. apply mapi_from_length.
  - intros ->.
    rewrite (predict_logs E st (Ok [])
               (TypeError "Reduce of empty array with no initial value") Hinf)
      by reflexivity.
    repeat split.
Qed.

(** C6 as it is worded fails: after a failed inference the component
    renders what it rendered before. *)
Lemma inference_failure_not_shown :
  ~ failure_shown exact failing_network (drawn rejects).
Proof.
  intros H.
  destruct (H _ (drawn_inference failing_network rejects eq_refl)) as [Hv _].
  apply Hv. unfold exec.
  rewrite (predict_logs failing_network _ _ _
             (drawn_inference failing_network rejects eq_refl) eq_refl).
  reflexivity.
Qed.

(** C6, amended.  When the inference call fails, the predictions and
    everything the component renders stay as they were; the error is
    written to the console, and nowhere else. *)
Theorem predict_failure_logged (A : Arith) (E : Env) (st : App.State)
        (error : exn) :
  inference E st (Throw error) ->
  let st' := exec (App.predict E) st in
  st' = exec (App.console_write (ConsoleError "Prediction error:" error)) st /\
  App.predictions st' = App.predictions st /\
  App.view st' = App.view st /\
  App.console st' =
  App.console st ++ [ConsoleError "Prediction error:" error].
Proof.
  intros Hinf. cbv zeta. unfold exec.
  rewrite (predict_logs E st (Throw error) error Hinf eq_refl).
  repeat split.
Qed.

(** C5.  The code at the failing input: after an upload that failed the
    message reports the error, yet the drawing is marked as saved, and a
    second click on save sends no request and answers that the drawing has
    already been saved. *)
Theorem failed_upload_marks_saved :
  let st1 := exec (App.saveImage failing_network) (drawn rejects) in
  let st2 := exec (App.saveImage failing_network) st1 in
  App.saveMessage st1 = "Error uploading image"%string /\
  App.currentDrawingSaved st1 = true /\
  length (App.requests st1) = 1%nat /\
  App.saveMessage st2 = "This drawing has already been saved"%string /\
  App.requests st2 = App.requests st1.
Proof. repeat split. Qed.

(** ** The theorems at sample inputs *)

Lemma softmax_distribution_witness :
  ArithLaws exact /\
  length ten_scores = 10%nat /\
  exists ps, App.softmax (A := exact) ten_scores = Ok ps /\
    length ps = 10%nat /\
    Forall unit_interval ps /\
    Rabs (Rsum ps - 1) <= 1 / 1000000.
Proof.
  split; [exact exact_laws|]. split; [reflexivity|].
  apply (@softmax_distribution exact exact_laws ten_scores). reflexivity.
Defined.

Lemma predict_ranking_sorted_witness :
  ArithLaws exact /\
  length ten_scores = 10%nat /\
  inference failing_network (drawn (returns ten_scores)) (Ok ten_scores) /\
  exists softmaxOutput,
    App.softmax (A := exact) ten_scores = Ok softmaxOutput /\
    length softmaxOutput = 10%nat /\
    let ranking :=
      App.predictions
        (exec (App.predict (A := exact) failing_network)
              (drawn (returns ten_scores))) in
    length ranking = 10%nat /\
    (forall i p, nth_error softmaxOutput i = Some p -> In (entry p i) ranking) /\
    (forall e, In e ranking ->
       (App.digit e < 10)%nat /\
       nth_error softmaxOutput (App.digit e) = Some (App.probability e)) /\
    StronglySorted ranked_before ranking.
Proof.
  split; [exact exact_laws|]. split; [reflexivity|].
  split; [apply (drawn_inference failing_network (returns ten_scores)); reflexivity|].
  apply (predict_ranking_sorted exact exact_laws failing_network
           (drawn (returns ten_scores)) ten_scores).
  - apply (drawn_inference failing_network (returns ten_scores)); reflexivity.
  - reflexivity.
Defined.

Lemma ranking_shift_invariant_witness :
  ArithLaws coarse /\
  length ten_scores = 10%nat /\
  (forall x, In x ten_scores -> rnd (Arith := coarse) (x + 5) = x + 5) /\
  shift_invariant coarse ten_scores 5 /\
  App.ranking (A := coarse) (repeat 3 10) =
  Ok (map (entry (rnd (Arith := coarse) (1 / 10))) (seq 0 10)).
Proof.
  assert (Hexact : forall x, In x ten_scores ->
                     rnd (Arith := coarse) (x + 5) = x + 5).
  { intros x Hx. apply coarse_small. pose proof pow_2_60. simpl in Hx.
    repeat (destruct Hx as [Hx|Hx]; [subst x; lra|]). contradiction. }
  split; [exact coarse_laws|]. split; [reflexivity|]. split; [exact Hexact|].
  split.
  - apply (proj1 (ranking_shift_invariant coarse coarse_laws));
      [reflexivity|exact Hexact].
  - apply (proj1 (proj2 (ranking_shift_invariant coarse coarse_laws))).
Defined.

Lemma predict_any_length_witness :
  inference failing_network (drawn (returns [0; 0; 0])) (Ok [0; 0; 0]) /\
  let st' := exec (App.predict (A := exact) failing_network)
                  (drawn (returns [0; 0; 0])) in
  length (App.predictions st') = 3%nat /\
  App.console st' = [] /\
  App.saveMessage st' = EmptyString.
Proof.
  split; [apply (drawn_inference failing_network (returns [0; 0; 0])); reflexivity|].
  apply (proj1 (predict_any_length exact failing_network
                  (drawn (returns [0; 0; 0])) [0; 0; 0]
                  (drawn_inference failing_network (returns [0; 0; 0]) eq_refl))).
  discriminate.
Defined.

Lemma predict_failure_logged_witness :
  inference failing_network (drawn rejects)
            (Throw (Rejected "failed to call OrtRun()")) /\
  let st' := exec (App.predict (A := exact) failing_network) (drawn rejects) in
  st' = exec (App.console_write
                (ConsoleError "Prediction error:"
                   (Rejected "failed to call OrtRun()")))
             (drawn rejects) /\
  App.predictions st' = [] /\
  App.view st' = App.view (drawn rejects) /\
  App.console st' =
  [ConsoleError "Prediction error:" (Rejected "failed to call OrtRun()")].
Proof.
  split; [apply (drawn_inference failing_network rejects); reflexivity|].
  apply (predict_failure_logged exact failing_network (drawn rejects)
           (Rejected "failed to call OrtRun()")
           (drawn_inference failing_network rejects eq_refl)).
Defined.

Lemma preprocessCanvas_formula_witness :
  PlatformLaws nearest /\
  getContext2d nearest = true /\
  uniform [xff; xff; xff; xff] white_canvas /\
  App.preprocessCanvas nearest white_canvas = Ok (repeat (-1)%float 784).
Proof.
  split; [exact nearest_laws|]. split; [reflexivity|].
  split; [exact white_canvas_uniform|].
  apply (proj1 (proj2 (preprocessCanvas_formula nearest white_canvas
                         nearest_laws eq_refl))).
  exact white_canvas_uniform.
Defined.

Lemma preprocessCanvas_shape_witness :
  PlatformLaws nearest /\
  getContext2d nearest = true /\
  exists data, App.preprocessCanvas nearest white_canvas = Ok data /\
    length data = 784%nat /\
    Forall (fun v => is_finite v = true /\
                     (-1 <=? v)%float = true /\ (v <=? 1)%float = true) data.
Proof.
  split; [exact nearest_laws|]. split; [reflexivity|].
  exact (preprocessCanvas_shape nearest white_canvas nearest_laws eq_refl).
Defined.

Lemma predict_ranking_digits_witness :
  inference failing_network (drawn (returns ten_scores)) (Ok ten_scores) /\
  length ten_scores = 10%nat /\
  let ranking :=
    App.predictions
      (exec (App.predict (A := exact) failing_network)
            (drawn (returns ten_scores))) in
  length ranking = 10%nat /\ Permutation (map App.digit ranking) (seq 0 10).
Proof.
  split; [apply (drawn_inference failing_network (returns ten_scores)); reflexivity|].
  split; [reflexivity|].
  apply (proj1 (predict_ranking_digits exact) failing_network
           (drawn (returns ten_scores)) ten_scores).
  - apply (drawn_inference failing_network (returns ten_scores)); reflexivity.
  - reflexivity.
Defined.

(** ** The scores 1 to 10 in exact arithmetic *)

Lemma ten_scores_max : Math_max 1 [2; 3; 4; 5; 6; 7; 8; 9; 10] = 10.
Proof.
  unfold Math_max. cbn [fold_left].
  repeat match goal with
  | |- context [Rmax (IZR ?a) (IZR ?b)] =>
      rewrite (Rmax_right (IZR a) (IZR b)) by lra
  end.
  reflexivity.
Qed.

Lemma ranking_one_to_ten :
  exists r, App.ranking (A := exact) ten_scores = Ok r /\
    map App.digit r = [9; 8; 7; 6; 5; 4; 3; 2; 1; 0]%nat /\
    StronglySorted (fun a b => App.probability b < App.probability a) r.
Proof.
  pose proof (@softmax_unfold exact ten_scores) as Hu.
  unfold exps, ten_scores in Hu. rewrite ten_scores_max in Hu.
  cbn [map reduce bind] in Hu.
  set (s := fold_left _ _ _) in Hu.
  assert (Hs : 0 < s).
  { assert (1 <= s); [|lra].
    assert (Hunit : forall a, a <= 10 -> unit_interval (@Mexp exact (@rnd exact (a - 10)))).
    { intros a Ha. apply (Mexp_le0 (ArithLaws := exact_laws)).
      cbn [rnd exact]. lra. }
    apply (fsum_ge_1 (HA := exact_laws)).
    - repeat (constructor; [apply Hunit; lra|]). constructor.
    - apply Hunit. lra.
    - right. do 8 right. left. cbn [Mexp rnd exact].
      replace (10 - 10) with 0 by ring. apply exp_0. }
  assert (Hinc : forall a b, a < b -> @rnd exact (@Mexp exact (@rnd exact (a - 10)) / s)
                         < @rnd exact (@Mexp exact (@rnd exact (b - 10)) / s)).
  { intros a b Hab. cbn [Mexp rnd exact]. unfold Rdiv.
    apply Rmult_lt_compat_r; [apply Rinv_0_lt_compat; exact Hs|].
    apply exp_increasing. lra. }
  rewrite ranking_unfold. fold ten_scores in Hu. rewrite Hu. cbn [bind].
  rewrite (sort_increasing (HA := exact_laws)).
  - eexists. split; [reflexivity|]. split; [reflexivity|].
    cbn [mapi_from rev app entry].
    repeat constructor; cbn [App.probability]; apply Hinc; lra.
  - repeat constructor; eexists; reflexivity.
  - repeat constructor; apply Hinc; lra.
Qed.

(** ** The scores 1 to 10 shifted by [2 ^ 60] *)

Lemma ranking_one_to_ten_coarse :
  exists r, App.ranking (A := coarse) ten_scores = Ok r /\
    map App.digit r = [9; 8; 7; 6; 5; 4; 3; 2; 1; 0]%nat.
Proof.
  pose proof pow_2_60 as HT.
  pose proof (@softmax_unfold coarse ten_scores) as Hu.
  unfold exps, ten_scores in Hu. rewrite ten_scores_max in Hu.
  cbn [map reduce bind] in Hu.
  set (s := fold_left _ _ _) in Hu.
  assert (Hunit : forall a, a <= 10 ->
            unit_interval (@Mexp coarse (@rnd coarse (a - 10)))).
  { intros a Ha. apply (Mexp_le0 (ArithLaws := coarse_laws)).
    rewrite coarse_small by lra. lra. }
  assert (Hs : 1 <= s).
  { apply (fsum_ge_1 (HA := coarse_laws)).
    - repeat (constructor; [apply Hunit; lra|]). constructor.
    - apply Hunit. lra.
    - right. do 8 right. left.
      rewrite coarse_small by lra. cbn [Mexp coarse].
      replace (10 - 10) with 0 by ring. apply exp_0. }
  assert (Hinc : forall a b, a < b -> b <= 10 ->
            @rnd coarse (@Mexp coarse (@rnd coarse (a - 10)) / s)
            < @rnd coarse (@Mexp coarse (@rnd coarse (b - 10)) / s)).
  { intros a b Hab Hb.
    assert (Hq : forall c, c <= 10 ->
              @Mexp coarse (@rnd coarse (c - 10)) / s <= 1).
    { intros c Hc. destruct (Hunit c Hc) as [H0 H1].
      apply Rle_trans with (1 / s).
      - unfold Rdiv. apply Rmult_le_compat_r; [|exact H1].
        left. apply Rinv_0_lt_compat. lra.
      - unfold Rdiv. rewrite Rmult_1_l. rewrite <- Rinv_1.
        apply Rinv_le_contravar; lra. }
    pose proof (Hq a ltac:(lra)) as Hqa. pose proof (Hq b Hb) as Hqb.
    rewrite !(coarse_small (_ / s)) by lra.
    rewrite !(coarse_small (_ - 10)) by lra.
    cbn [Mexp coarse]. unfold Rdiv.
    apply Rmult_lt_compat_r; [apply Rinv_0_lt_compat; lra|].
    apply exp_increasing. lra. }
  rewrite ranking_unfold. fold ten_scores in Hu. rewrite Hu. cbn [bind].
  rewrite (sort_increasing (HA := coarse_laws)).
  - eexists. split; reflexivity.
  - repeat constructor; eexists; reflexivity.
  - repeat constructor; apply Hinc; lra.
Qed.

(** In binary64 itself the ten sums [k + 2 ^ 60] are rounded to [2 ^ 60]. *)
Lemma binary64_shift_rounds :
  map (fun k => (Z2F k + Z2F (2 ^ 60))%float) [1; 2; 3; 4; 5; 6; 7; 8; 9; 10]%Z
  = repeat (Z2F (2 ^ 60)) 10.
Proof. vm_compute. reflexivity. Qed.

(** C3 as it is worded fails: the scores 1 to 10 are ranked 9, 8, ..., 0,
    but adding [2 ^ 60] to each gives ten times [2 ^ 60], ranked
    0, 1, ..., 9. *)
Lemma rounded_shift_reorders : ~ shift_invariant coarse ten_scores (2 ^ 60).
Proof.
  unfold shift_invariant, shifted. intros H.
  assert (Hsh : map (fun x => rnd (Arith := coarse) (x + 2 ^ 60)) ten_scores
                = repeat (2 ^ 60) 10).
  { unfold ten_scores. cbn [map repeat].
    rewrite !coarse_plateau by lra. reflexivity. }
  rewrite Hsh, (ranking_repeat coarse coarse_laws) in H.
  destruct ranking_one_to_ten_coarse as (r & Hr & Hd).
  rewrite Hr in H. injection H as H. rewrite <- H in Hd.
  cbn [map seq App.digit entry] in Hd. discriminate Hd.
Qed.

(** ** Saving *)

Lemma saveImage_undrawn (E : Env) (st : App.State) (canvas : Canvas) :
  App.canvasRef st = Some canvas ->
  App.canvasModified st = false ->
  App.saveImage E st =
  App.setSaveMessage "Please draw a digit before saving" st.
Proof.
  intros Hc Hm. unfold App.saveImage, bindM, get. rewrite Hc, Hm. reflexivity.
Qed.

Lemma saveImage_saved (E : Env) (st : App.State) (canvas : Canvas) :
  App.canvasRef st = Some canvas ->
  App.canvasModified st = true ->
  App.currentDrawingSaved st = true ->
  App.saveImage E st =
  App.setSaveMessage "This drawing has already been saved" st.
Proof.
  intros Hc Hm Hs. unfold App.saveImage, bindM, get. rewrite Hc, Hm, Hs. reflexivity.
Qed.

Lemma saveImage_sends (E : Env) (st : App.State) (canvas : Canvas) :
  App.canvasRef st = Some canvas ->
  App.canvasModified st = true ->
  App.currentDrawingSaved st = false ->
  exec (App.saveImage E) st =
  match put E (upload_request E canvas) with
  | Ok html_url =>
      {| App.canvasRef := Some canvas;
         App.predictions := App.predictions st;
         App.session := App.session st;
         App.uploadCount := App.uploadCount st + 1;
         App.saveMessage := ("Successfully uploaded image "
                             ++ decimal (App.uploadCount st + 1) ++ "!")%string;
         App.canvasModified := true;
         App.currentDrawingSaved := true;
         App.console := App.console st ++ [ConsoleLog "Image saved to GitHub:" html_url];
         App.requests := App.requests st ++ [upload_request E canvas] |}
  | Throw error =>
      {| App.canvasRef := Some canvas;
         App.predictions := App.predictions st;
         App.session := App.session st;
         App.uploadCount := App.uploadCount st;
         App.saveMessage := "Error uploading image";
         App.canvasModified := true;
         App.currentDrawingSaved := true;
         App.console := App.console st
                        ++ [ConsoleError "Error saving image to GitHub:" error];
         App.requests := App.requests st ++ [upload_request E canvas] |}
  end.
Proof.
  intros Hc Hm Hs. destruct st; simpl in *; subst.
  unfold exec, App.saveImage, App.saveImageToGitHub, App.axios_put, upload_request,
    bindM, get, try_catch, modify, lift; cbn.
  destruct (put E _); reflexivity.
Qed.

Lemma saveImage_absent (E : Env) (st : App.State) :
  App.canvasRef st = None -> App.saveImage E st = (Ok tt, st).
Proof.
  intros Hc. unfold App.saveImage, bindM, get. rewrite Hc. reflexivity.
Qed.

(** The four ways a click on save can end. *)
Lemma saveImage_cases (E : Env) (st : App.State) :
  exec (App.saveImage E) st = st \/
  (exists msg, exec (App.saveImage E) st = exec (App.setSaveMessage msg) st) \/
  (exists canvas,
     App.canvasRef st = Some canvas /\
     App.canvasModified st = true /\
     App.currentDrawingSaved st = false).
Proof.
  destruct (App.canvasRef st) as [canvas|] eqn:Hc.
  - destruct (App.canvasModified st) eqn:Hm.
    + destruct (App.currentDrawingSaved st) eqn:Hs.
      * right; left. eexists. unfold exec.
        rewrite (saveImage_saved E st canvas Hc Hm Hs). reflexivity.
      * right; right. exists canvas. auto.
    + right; left. eexists. unfold exec.
      rewrite (saveImage_undrawn E st canvas Hc Hm). reflexivity.
  - left. unfold exec. rewrite (saveImage_absent E st Hc). reflexivity.
Qed.

(** X1. With a canvas that was not drawn on, or whose drawing counts as saved, a
    click on save only sets the message ('Please draw a digit before saving', or
    'This drawing has already been saved'): no request is sent, nothing is
    logged, and the counter and the saved flag stay as they were. *)
Theorem saveImage_blocked (E : Env) (st : App.State) (canvas : Canvas) :
  App.canvasRef st = Some canvas ->
  App.canvasModified st = false \/ App.currentDrawingSaved st = true ->
  let st' := exec (App.saveImage E) st in
  st' = exec (App.setSaveMessage
                (if App.canvasModified st
                 then "This drawing has already been saved"
                 else "Please draw a digit before saving")) st /\
  App.requests st' = App.requests st /\
  App.console st' = App.console st /\
  App.uploadCount st' = App.uploadCount st /\
  App.currentDrawingSaved st' = App.currentDrawingSaved st.
Proof.
  intros Hc Hg. cbv zeta. unfold exec.
  destruct (App.canvasModified st) eqn:Hm.
  - destruct Hg as [Hg|Hs]; [discriminate|].
    rewrite (saveImage_saved E st canvas Hc Hm Hs). repeat split.
  - rewrite (saveImage_undrawn E st canvas Hc Hm). repeat split.
Qed.

(** X2. With a drawing that was not saved yet and an upload that succeeds, a click
    on save sends exactly the request for that canvas, adds one to the counter,
    shows 'Successfully uploaded image N!' with N the counter plus one, marks
    the drawing as saved, logs the returned address and leaves the predictions
    alone. *)
Theorem saveImage_uploads (E : Env) (st : App.State) (canvas : Canvas)
        (html_url : string) :
  App.canvasRef st = Some canvas ->
  App.canvasModified st = true ->
  App.currentDrawingSaved st = false ->
  put E (upload_request E canvas) = Ok html_url ->
  let st' := exec (App.saveImage E) st in
  App.requests st' = App.requests st ++ [upload_request E canvas] /\
  App.uploadCount st' = (App.uploadCount st + 1)%nat /\
  App.saveMessage st' =
    ("Successfully uploaded image " ++ decimal (App.uploadCount st + 1) ++ "!")%string /\
  App.currentDrawingSaved st' = true /\
  App.console st' = App.console st ++ [ConsoleLog "Image saved to GitHub:" html_url] /\
  App.predictions st' = App.predictions st.
Proof.
  intros Hc Hm Hs Hput. cbv zeta.
  rewrite (saveImage_sends E st canvas Hc Hm Hs), Hput. repeat split.
Qed.

Lemma saveImage_leaves_blocked (E : Env) (st : App.State) :
  save_blocked (exec (App.saveImage E) st).
Proof.
  unfold save_blocked.
  destruct st as [[c|] p s n m [|] [|] co rq]; run_saveImage; auto.
  destruct (put E _); cbn; auto.
Qed.

Lemma save_blocked_quiet (E : Env) (st : App.State) :
  save_blocked st ->
  App.requests (exec (App.saveImage E) st) = App.requests st /\
  App.uploadCount (exec (App.saveImage E) st) = App.uploadCount st /\
  App.console (exec (App.saveImage E) st) = App.console st.
Proof.
  unfold save_blocked.
  destruct st as [[c|] p s n m [|] [|] co rq]; cbn;
    intros [H|[H|H]]; try discriminate; run_saveImage; auto.
Qed.

Lemma saveImage_one_request (E : Env) (st : App.State) :
  App.requests (exec (App.saveImage E) st) = App.requests st \/
  exists req,
    App.requests (exec (App.saveImage E) st) = App.requests st ++ [req] /\
    App.currentDrawingSaved st = false.
Proof.
  destruct st as [[c|] p s n m [|] [|] co rq]; run_saveImage; auto.
  right. eexists. destruct (put E _); cbn; split; reflexivity.
Qed.

(** A click whose upload is answered before anything else happens is the
    handler run to its end. *)
Lemma click_then_settle (E : Env) (st : App.State) :
  App.saveImage E st =
  match Pending.click E st with
  | (Ok (Some p), st1) => Pending.settle p (put E (Pending.request p)) st1
  | (Ok None, st1) => (Ok tt, st1)
  | (Throw e, st1) => (Throw e, st1)
  end.
Proof.
  destruct st as [[c|] p s n m [|] [|] co rq];
    unfold Pending.click, Pending.settle, Pending.send; run_saveImage;
    reflexivity.
Qed.

(** X3. Once a click on save has run to its end, its upload answered, a further
    click finds no upload to start: it sends no request, counts nothing and logs
    nothing, whatever the state was and however the network answered. A click
    that falls before the answer is another matter: it is not covered here. *)
Theorem saveImage_twice (E1 E2 : Env) (st : App.State) :
  let st1 := exec (App.saveImage E1) st in
  let st2 := exec (App.saveImage E2) st1 in
  (length (App.requests st1) <= length (App.requests st) + 1)%nat /\
  Pending.click E2 st1 = (Ok None, st2) /\
  App.requests st2 = App.requests st1 /\
  App.uploadCount st2 = App.uploadCount st1 /\
  App.console st2 = App.console st1.
Proof.
  cbv zeta. split; [|split].
  - destruct (saveImage_one_request E1 st) as [H|(req & H & _)]; rewrite H.
    + lia.
    + rewrite length_app. simpl. lia.
  - pose proof (saveImage_leaves_blocked E1 st) as Hb.
    revert Hb. unfold save_blocked.
    generalize (exec (App.saveImage E1) st). intros st1.
    destruct st1 as [[c|] p s n m [|] [|] co rq]; cbn;
      intros [H|[H|H]]; try discriminate; reflexivity.
  - apply save_blocked_quiet, saveImage_leaves_blocked.
Qed.

(** X28. A second click on save that falls before the first upload is answered passes
    both guards, because the drawing is marked as saved only after the answer: a
    second request is sent, with the timestamp of the second click. When both
    uploads succeed the counter grows by two, while both success messages carry
    the same number, the counter at the clicks plus one. *)
Theorem overlapping_saves (E1 E2 : Env) (st : App.State) (canvas : Canvas)
        (h1 h2 : string) :
  App.canvasRef st = Some canvas ->
  App.canvasModified st = true ->
  App.currentDrawingSaved st = false ->
  exists p1 p2 st1 st2,
    Pending.click E1 st = (Ok (Some p1), st1) /\
    Pending.click E2 st1 = (Ok (Some p2), st2) /\
    App.requests st2 =
      App.requests st ++ [upload_request E1 canvas; upload_request E2 canvas] /\
    let st3 := exec (Pending.settle p1 (Ok h1)) st2 in
    let st4 := exec (Pending.settle p2 (Ok h2)) st3 in
    App.requests st4 = App.requests st2 /\
    App.uploadCount st4 = (App.uploadCount st + 2)%nat /\
    App.saveMessage st3 =
      ("Successfully uploaded image " ++ decimal (App.uploadCount st + 1) ++ "!")%string /\
    App.saveMessage st4 = App.saveMessage st3 /\
    App.currentDrawingSaved st4 = true.
Proof.
  intros Hc Hm Hs.
  destruct st as [c p s n m cm sv co rq]. cbn in Hc, Hm, Hs. subst c cm sv.
  unfold Pending.click, Pending.send, bindM, get, modify, ret. cbn.
  do 4 eexists. split; [reflexivity|]. split; [reflexivity|].
  cbn. rewrite <- app_assoc. split; [reflexivity|].
  unfold exec, Pending.settle, bindM, try_catch, lift, modify,
    App.setUploadCount, App.setSaveMessage, App.console_write,
    App.setCurrentDrawingSaved. cbn.
  repeat split. lia.
Qed.

(** X4. A click on save never changes the predictions, the session, the canvas or
    the modified flag; the counter never decreases, a drawing marked as saved
    stays so, and at most one console entry is added. *)
Theorem saveImage_frame (E : Env) (st : App.State) :
  let st' := exec (App.saveImage E) st in
  App.predictions st' = App.predictions st /\
  App.session st' = App.session st /\
  App.canvasRef st' = App.canvasRef st /\
  App.canvasModified st' = App.canvasModified st /\
  (App.uploadCount st <= App.uploadCount st')%nat /\
  (App.currentDrawingSaved st = true -> App.currentDrawingSaved st' = true) /\
  exists entries, App.console st' = App.console st ++ entries /\
                  (length entries <= 1)%nat.
Proof.
  cbv zeta.
  destruct st as [[c|] p s n m [|] [|] co rq]; run_saveImage;
    try (repeat split; try lia; exists []; rewrite app_nil_r; split; [reflexivity|simpl; lia]).
  destruct (put E _); cbn; repeat split; try lia;
    eexists; split; try reflexivity; simpl; lia.
Qed.

(** *** The content of the request *)

Lemma until_comma_free (s : string) : comma_free s -> until_comma s = s.
Proof.
  induction s as [|c s IH]; simpl; [reflexivity|].
  intros [Hc Hs]. destruct (Ascii.eqb_spec c ","%char); [contradiction|].
  rewrite IH by exact Hs. reflexivity.
Qed.

Lemma split_comma_1_append (header rest : string) :
  comma_free header ->
  split_comma_1 (header ++ String ","%char rest) = Some (until_comma rest).
Proof.
  induction header as [|c header IH]; simpl.
  - reflexivity.
  - intros [Hc Hh]. destruct (Ascii.eqb_spec c ","%char); [contradiction|].
    apply IH, Hh.
Qed.

Lemma split_comma_1_none (s : string) :
  comma_free s -> split_comma_1 s = None.
Proof.
  induction s as [|c s IH]; simpl; [reflexivity|].
  intros [Hc Hs]. destruct (Ascii.eqb_spec c ","%char); [contradiction|].
  apply IH, Hs.
Qed.

(** X5. When the data URL of the canvas is a header, a comma and a payload without
    commas, the request of a save carries exactly that payload as content, the
    path digit_9_<timestamp>.png of the repository justadude12/mnist-images, the
    message 'Add image digit_9_<timestamp>' and the token in its authorization
    header. *)
Theorem saveImage_content (E : Env) (st : App.State) (canvas : Canvas)
        (header payload : string) :
  App.canvasRef st = Some canvas ->
  App.canvasModified st = true ->
  App.currentDrawingSaved st = false ->
  toDataURL E canvas = (header ++ "," ++ payload)%string ->
  comma_free header -> comma_free payload ->
  exists req,
    App.requests (exec (App.saveImage E) st) = App.requests st ++ [req] /\
    content req = Some payload /\
    url req = ("https://api.github.com/repos/justadude12/mnist-images/contents/digit_9_"
               ++ now E ++ ".png")%string /\
    message req = ("Add image digit_9_" ++ now E)%string /\
    authorization req = ("token " ++ token E)%string.
Proof.
  intros Hc Hm Hs Hurl Hh Hp.
  exists (upload_request E canvas). split.
  - rewrite (saveImage_sends E st canvas Hc Hm Hs).
    destruct (put E _); reflexivity.
  - unfold upload_request; cbn [content url message authorization].
    rewrite Hurl. change ("," ++ payload)%string with (String ","%char payload).
    rewrite split_comma_1_append by exact Hh.
    rewrite until_comma_free by exact Hp. repeat split.
Qed.

(** *** The variant without the guards *)

Lemma variant_saveImage_step (E : Env) (st : Unguarded.State) (canvas : Canvas) :
  Unguarded.canvasRef st = Some canvas ->
  exec (Unguarded.saveImage E) st =
  {| Unguarded.canvasRef := Some canvas;
     Unguarded.predictions := Unguarded.predictions st;
     Unguarded.session := Unguarded.session st;
     Unguarded.console :=
       Unguarded.console st ++ [upload_log (put E (upload_request E canvas))];
     Unguarded.requests := Unguarded.requests st ++ [upload_request E canvas] |}.
Proof.
  intros Hc. destruct st as [c p s co rq]. simpl in Hc. subst c.
  run_variant_saveImage. unfold upload_request.
  destruct (put E _); reflexivity.
Qed.

(** X6. In the variant without the guards every click on save uploads the canvas: a
    second click, after the first was answered, sends a second request, built
    from the clock, data URL and token as that click reads them; the outcome is
    only logged, and what the page shows stays as it was. *)
Theorem variant_saveImage_always_uploads (E1 E2 : Env) (st : Unguarded.State)
        (canvas : Canvas) :
  Unguarded.canvasRef st = Some canvas ->
  let st1 := exec (Unguarded.saveImage E1) st in
  let st2 := exec (Unguarded.saveImage E2) st1 in
  Unguarded.requests st1 = Unguarded.requests st ++ [upload_request E1 canvas] /\
  Unguarded.console st1 =
    Unguarded.console st ++ [upload_log (put E1 (upload_request E1 canvas))] /\
  Unguarded.view st1 = Unguarded.view st /\
  Unguarded.requests st2 =
    Unguarded.requests st ++ [upload_request E1 canvas; upload_request E2 canvas] /\
  Unguarded.view st2 = Unguarded.view st.
Proof.
  intros Hc. cbv zeta.
  rewrite (variant_saveImage_step E1 st canvas Hc).
  rewrite (variant_saveImage_step E2 _ canvas) by reflexivity.
  cbn. rewrite <- app_assoc. repeat split.
Qed.

(** X7. Where the guards let a click on save through, both variants send the same
    request and write the same console entry. *)
Theorem variants_same_upload (E : Env) (sa : App.State) (su : Unguarded.State)
        (canvas : Canvas) :
  App.canvasRef sa = Some canvas ->
  App.canvasModified sa = true ->
  App.currentDrawingSaved sa = false ->
  Unguarded.canvasRef su = Some canvas ->
  exists req entry,
    App.requests (exec (App.saveImage E) sa) = App.requests sa ++ [req] /\
    Unguarded.requests (exec (Unguarded.saveImage E) su) =
      Unguarded.requests su ++ [req] /\
    App.console (exec (App.saveImage E) sa) = App.console sa ++ [entry] /\
    Unguarded.console (exec (Unguarded.saveImage E) su) =
      Unguarded.console su ++ [entry].
Proof.
  intros Hc Hm Hs Hu.
  exists (upload_request E canvas), (upload_log (put E (upload_request E canvas))).
  rewrite (saveImage_sends E sa canvas Hc Hm Hs).
  rewrite (variant_saveImage_step E su canvas Hu).
  destruct (put E _); cbn; repeat split.
Qed.

(** ** Predicting *)

(** X8. Given a 2D context, the array preprocessCanvas returns always fits the
    dimensions [1, 1, 28, 28] that predict gives the tensor, for every canvas
    and every image data: the tensor constructor never throws. *)
Theorem preprocessed_tensor_shape (P : Platform) (canvas : Canvas) :
  getContext2d P = true ->
  exists data tensor,
    App.preprocessCanvas P canvas = Ok data /\
    new_Tensor data [1; 1; 28; 28]%nat = Ok tensor /\
    tensor_data tensor = data /\
    dims tensor = [1; 1; 28; 28]%nat /\
    length (tensor_data tensor) = fold_right Nat.mul 1%nat (dims tensor).
Proof.
  intros Hctx. unfold App.preprocessCanvas. rewrite Hctx.
  eexists. eexists. split; [reflexivity|].
  unfold new_Tensor. rewrite convert_length.
  change (Nat.eqb (fold_right Nat.mul 1%nat [1; 1; 28; 28]%nat) 784) with true.
  cbv beta iota. repeat split. cbn [tensor_data dims]. apply convert_length.
Qed.

Section PredictFrame.
Context {A : Arith}.

(** The three ways a click on predict can end. *)
Lemma predict_cases (E : Env) (st : App.State) :
  App.predict E st = (Ok tt, st) \/
  (exists r, App.predict E st = App.setPredictions r st) \/
  (exists error,
     App.predict E st =
     App.console_write (ConsoleError "Prediction error:" error) st).
Proof.
  unfold App.predict, bindM, get.
  destruct (App.session st) as [run|]; [|left; reflexivity].
  destruct (App.canvasRef st) as [canvas|]; [|left; reflexivity].
  unfold try_catch, lift, App.preprocessCanvas.
  destruct (getContext2d (platform E)); [|right; right; eexists; reflexivity].
  unfold new_Tensor. rewrite convert_length.
  change (Nat.eqb (fold_right Nat.mul 1%nat [1; 1; 28; 28]%nat) 784) with true.
  cbv beta iota.
  destruct (run _) as [outputData|e]; [|right; right; eexists; reflexivity].
  destruct (App.ranking outputData) as [r|e].
  - right; left. exists r. reflexivity.
  - right; right. eexists; reflexivity.
Qed.

(** X9. A click on predict never changes the canvas, the session, the upload
    counter, the save message, the modified and saved flags or the requests
    sent; either the console is untouched, or the predictions are untouched and
    one 'Prediction error:' entry is logged. *)
Theorem predict_frame (E : Env) (st : App.State) :
  let st' := exec (App.predict E) st in
  App.canvasRef st' = App.canvasRef st /\
  App.session st' = App.session st /\
  App.uploadCount st' = App.uploadCount st /\
  App.saveMessage st' = App.saveMessage st /\
  App.canvasModified st' = App.canvasModified st /\
  App.currentDrawingSaved st' = App.currentDrawingSaved st /\
  App.requests st' = App.requests st /\
  (App.console st' = App.console st \/
   App.predictions st' = App.predictions st /\
   exists error,
     App.console st' = App.console st ++ [ConsoleError "Prediction error:" error]).
Proof.
  cbv zeta. unfold exec.
  destruct (predict_cases E st) as [H|[[r H]|[error H]]]; rewrite H;
    repeat split; try (left; reflexivity).
  right. split; [reflexivity|]. exists error. reflexivity.
Qed.

(** X10. When the temporary canvas gives no 2D context, a click on predict changes
    nothing but the console, where it logs 'Prediction error:' with the error
    'Could not get canvas context'. *)
Theorem predict_without_context (E : Env) (st : App.State)
        (run : App.Session) (canvas : Canvas) :
  App.session st = Some run ->
  App.canvasRef st = Some canvas ->
  getContext2d (platform E) = false ->
  exec (App.predict E) st =
  exec (App.console_write
          (ConsoleError "Prediction error:" (Error "Could not get canvas context")))
       st.
Proof.
  intros Hs Hc Hctx. unfold exec, App.predict, bindM, get. rewrite Hs, Hc.
  unfold try_catch, lift, App.preprocessCanvas. rewrite Hctx. reflexivity.
Qed.

End PredictFrame.

(** *** Loading the model *)

(** X11. When creating the inference session fails, loadModel logs 'Failed to load
    model:' with the error and throws it on; the session stays unset, and a
    click on predict then does nothing at all. *)
Theorem loadModel_failure (A : Arith) (E : Env) (st : App.State) (e : exn) :
  App.session st = None ->
  let st1 := exec (Events.loadModel (Throw e)) st in
  fst (Events.loadModel (Throw e) st) = Throw e /\
  App.console st1 = App.console st ++ [ConsoleError "Failed to load model:" e] /\
  App.session st1 = None /\
  exec (App.predict E) st1 = st1.
Proof.
  intros Hs. cbv zeta.
  unfold exec, Events.loadModel, try_catch, bindM, lift, throw; cbn.
  repeat split; try exact Hs.
  unfold App.predict, bindM, get; cbn. rewrite Hs. reflexivity.
Qed.

(** ** Softmax on arrays of any length *)

Section SoftmaxOrder.
Context {A : Arith} {HA : ArithLaws A}.

Lemma Math_max_unique (x0 m : R) (rest : list R) :
  In m (x0 :: rest) -> (forall x, In x (x0 :: rest) -> x <= m) ->
  Math_max x0 rest = m.
Proof.
  intros Hin Hmax. apply Rle_antisym.
  - apply Hmax, Math_max_in.
  - destruct Hin as [<-|Hin]; [apply Math_max_ge_init|apply Math_max_ge, Hin].
Qed.

Lemma nth_error_exps (arr : list R) (x0 : R) (rest : list R) (j : nat) (x : R) :
  arr = x0 :: rest ->
  nth_error arr j = Some x ->
  nth_error (exps arr) j = Some (Mexp (rnd (x - Math_max x0 rest))).
Proof.
  intros -> Hj. unfold exps. rewrite nth_error_map, Hj. reflexivity.
Qed.

Lemma div_le_div (a b s : R) : 1 <= s -> a <= b -> a / s <= b / s.
Proof.
  intros Hs Hab. unfold Rdiv. apply Rmult_le_compat_r; [|exact Hab].
  left. apply Rinv_0_lt_compat. lra.
Qed.

Lemma softmax_sum (arr : list R) :
  arr <> [] ->
  exists sum, 1 <= sum /\
    App.softmax arr = Ok (map (fun x => rnd (x / sum)) (exps arr)).
Proof.
  intros Hne. rewrite softmax_unfold.
  pose proof (exps_unit arr) as Hunit. pose proof (exps_one arr Hne) as Hone.
  destruct (exps arr) as [|a t] eqn:Ee; [destruct Hone|].
  cbn [reduce bind]. eexists. split; [|reflexivity].
  inversion Hunit as [|? ? Ha Ht]; subst.
  apply fsum_ge_1; [exact Ht|destruct Ha; lra|].
  destruct Hone as [->|Hone]; [left; lra|right; exact Hone].
Qed.

(** X12. For every non-empty array of finite scores, of any length, softmax returns
    as many values, all within [0, 1], and every position that holds a highest
    score gets the highest value. *)
Theorem softmax_highest_score (arr : list R) :
  arr <> [] ->
  exists ps top,
    App.softmax arr = Ok ps /\
    length ps = length arr /\
    Forall unit_interval ps /\
    Forall (fun p => p <= top) ps /\
    forall j m,
      nth_error arr j = Some m -> (forall x, In x arr -> x <= m) ->
      nth_error ps j = Some top.
Proof.
  intros Hne. destruct (softmax_sum arr Hne) as (sum & Hsum & Hsm).
  exists (map (fun x => rnd (x / sum)) (exps arr)), (rnd (1 / sum)).
  split; [exact Hsm|]. split; [rewrite length_map; apply exps_length|].
  split; [apply quotient_unit; [exact Hsum|apply exps_unit]|]. split.
  - apply Forall_map. eapply Forall_impl; [|apply exps_unit].
    intros e [_ He]. apply rnd_mono, div_le_div; assumption.
  - intros j m Hj Hmax. destruct arr as [|x0 rest]; [congruence|].
    rewrite nth_error_map, (nth_error_exps _ x0 rest j m eq_refl Hj).
    rewrite (Math_max_unique x0 m rest (nth_error_In _ _ Hj) Hmax).
    replace (m - m) with 0 by ring. rewrite rnd_0, Mexp_0. reflexivity.
Qed.

(** X13. With a monotone Math.exp, softmax keeps the order of the scores: a score
    that is not higher than another gets a probability that is not higher. *)
Theorem softmax_order_preserving (arr : list R) :
  (forall x y, x <= y -> Mexp x <= Mexp y) ->
  arr <> [] ->
  exists ps,
    App.softmax arr = Ok ps /\
    forall i j x y,
      nth_error arr i = Some x -> nth_error arr j = Some y -> x <= y ->
      exists p q, nth_error ps i = Some p /\ nth_error ps j = Some q /\ p <= q.
Proof.
  intros Hmono Hne. destruct (softmax_sum arr Hne) as (sum & Hsum & Hsm).
  eexists. split; [exact Hsm|]. intros i j x y Hi Hj Hxy.
  destruct arr as [|x0 rest]; [congruence|].
  do 2 eexists.
  rewrite !nth_error_map.
  rewrite (nth_error_exps _ x0 rest i x eq_refl Hi).
  rewrite (nth_error_exps _ x0 rest j y eq_refl Hj).
  split; [reflexivity|]. split; [reflexivity|].
  apply rnd_mono, div_le_div; [exact Hsum|].
  apply Hmono, rnd_mono. lra.
Qed.
End SoftmaxOrder.

(** ** What is rendered *)

Lemma sorted_firstn_skipn (T : Type) (before : T -> T -> Prop) (l : list T) (n : nat) :
  StronglySorted before l ->
  StronglySorted before (firstn n l) /\
  forall a b, In a (firstn n l) -> In b (skipn n l) -> before a b.
Proof.
  intros Hs; revert n; induction Hs as [|x l Hl IH Hx]; intros [|n]; simpl.
  - split; [constructor|intros ? ? []].
  - split; [constructor|intros ? ? []].
  - split; [constructor|intros ? ? []].
  - destruct (IH n) as [IH1 IH2]. rewrite Forall_forall in Hx. split.
    + constructor; [exact IH1|]. apply Forall_forall.
      intros y Hy. apply Hx. rewrite <- (firstn_skipn n l).
      apply in_or_app. left; exact Hy.
    + intros a b [<-|Ha] Hb.
      * apply Hx. rewrite <- (firstn_skipn n l).
        apply in_or_app. right; exact Hb.
      * apply IH2; assumption.
Qed.

(** X14. After a successful prediction on at least three scores the page shows
    exactly three predictions, the first three of the ranking, in ranking order,
    each ranked before every prediction that is not shown. *)
Theorem render_top_three (A : Arith) (HA : ArithLaws A)
        (E : Env) (st : App.State) (scores : list R) :
  inference E st (Ok scores) ->
  (3 <= length scores)%nat ->
  let st' := exec (App.predict E) st in
  let shown := Events.shown_predictions (Events.render_app st') in
  shown = firstn 3 (App.predictions st') /\
  length shown = 3%nat /\
  StronglySorted ranked_before shown /\
  forall a b, In a shown -> In b (skipn 3 (App.predictions st')) ->
              ranked_before a b.
Proof.
  intros Hinf Hlen. cbv zeta.
  destruct (softmax_nonempty scores) as [sum Hsm];
    [intros ->; simpl in Hlen; lia|].
  destruct (softmax_representable _ _ Hsm) as [Hl Hrep].
  unfold exec. rewrite (predict_updates E st scores _ Hinf)
    by (rewrite ranking_unfold, Hsm; reflexivity).
  unfold Events.render_app.
  cbn [App.setPredictions modify snd App.predictions Events.shown_predictions].
  set (r := sort by_probability _).
  assert (Hr : length r = length scores).
  { unfold r. rewrite (Permutation_length (sort_perm _ _)), mapi_from_length.
    exact Hl. }
  assert (Hsorted : StronglySorted ranked_before r) by (apply sort_sorted; exact Hrep).
  replace (0 <? length r)%nat with true by (symmetry; apply Nat.ltb_lt; lia).
  destruct (sorted_firstn_skipn _ ranked_before r 3 Hsorted) as [H1 H2].
  repeat split; try assumption.
  rewrite length_firstn. lia.
Qed.

(** *** The colour of the save message *)

Lemma avoids_append (c : ascii) (s1 s2 : string) :
  avoids c s1 -> avoids c s2 -> avoids c (s1 ++ s2).
Proof.
  induction s1 as [|d s1 IH]; simpl; [auto|].
  intros [Hd H1] H2. split; [exact Hd|apply IH; assumption].
Qed.

Lemma includes_Error (s : string) :
  avoids "E"%char s -> Events.includes "Error" s = false.
Proof.
  induction s as [|d s IH]; [reflexivity|].
  intros [Hd Hs].
  change (Events.includes "Error" (String d s))
    with ((if ascii_dec "E"%char d then String.prefix "rror" s else false)
          || Events.includes "Error" s).
  rewrite IH by exact Hs.
  destruct (ascii_dec "E"%char d) as [Heq|_]; [congruence|reflexivity].
Qed.

Lemma decimal_avoids_E (n : nat) : avoids "E"%char (decimal n).
Proof.
  unfold decimal. generalize (Nat.to_uint n). intros d.
  induction d; simpl; auto; split; auto; discriminate.
Qed.

Lemma success_message_colour (n : nat) :
  Events.includes "Error"
    ("Successfully uploaded image " ++ decimal n ++ "!")%string = false.
Proof.
  apply includes_Error.
  apply (avoids_append _ "Successfully uploaded image ").
  - simpl. repeat split; discriminate.
  - apply avoids_append; [apply decimal_avoids_E|].
    simpl. repeat split; discriminate.
Qed.

(** X15. After a click on save with a canvas the page shows a message, and it shows
    it in the error colour exactly when an upload was tried and failed. *)
Theorem render_save_message (E : Env) (st : App.State) (canvas : Canvas) :
  App.canvasRef st = Some canvas ->
  exists c msg,
    Events.shown_message (Events.render_app (exec (App.saveImage E) st))
      = Some (c, msg) /\
    (c = Events.error_colour <->
     App.canvasModified st = true /\
     App.currentDrawingSaved st = false /\
     exists error, put E (upload_request E canvas) = Throw error).
Proof.
  intros Hc. unfold Events.render_app; cbn [Events.shown_message].
  destruct (App.canvasModified st) eqn:Hm.
  - destruct (App.currentDrawingSaved st) eqn:Hs.
    + unfold exec. rewrite (saveImage_saved E st canvas Hc Hm Hs).
      do 2 eexists. split; [reflexivity|].
      split; [discriminate|intros (_ & H & _); discriminate].
    + rewrite (saveImage_sends E st canvas Hc Hm Hs).
      destruct (put E (upload_request E canvas)) as [html_url|error].
      * exists Events.success_colour.
        exists ("Successfully uploaded image "
                ++ decimal (App.uploadCount st + 1) ++ "!")%string.
        split.
        -- transitivity
             (Some (if Events.includes "Error"
                         ("Successfully uploaded image "
                          ++ decimal (App.uploadCount st + 1) ++ "!")
                    then Events.error_colour else Events.success_colour,
                    ("Successfully uploaded image "
                     ++ decimal (App.uploadCount st + 1) ++ "!")%string));
             [reflexivity|].
           rewrite success_message_colour. reflexivity.
        -- split; [discriminate|intros (_ & _ & e & He); discriminate].
      * do 2 eexists. split; [reflexivity|].
        split; [intros _; repeat split; eexists; reflexivity|reflexivity].
  - unfold exec. rewrite (saveImage_undrawn E st canvas Hc Hm).
    do 2 eexists. split; [reflexivity|].
    split; [discriminate|intros (H & _); discriminate].
Qed.

(** ** More on the preprocessor *)

Lemma nth_error_convert (d : list byte) (j : nat) :
  nth_error (App.convert d) j =
  if Nat.ltb j 784
  then Some (if Nat.ltb j ((length d + 3) / 4)
             then fround (App.pixel_value d (4 * j))
             else 0%float)
  else None.
Proof.
  unfold App.convert.
  rewrite (nth_error_fill (fun k => App.pixel_value d (4 * k))).
  unfold Float32Array. change (28 * 28)%nat with 784%nat.
  destruct (Nat.ltb_spec j 784) as [Hj|Hj].
  - rewrite nth_error_repeat by exact Hj.
    destruct (Nat.ltb j ((length d + 3) / 4)); reflexivity.
  - assert (H : nth_error (repeat 0%float 784) j = None)
      by (apply nth_error_None; rewrite repeat_length; exact Hj).
    rewrite H. destruct (Nat.ltb j ((length d + 3) / 4)); reflexivity.
Qed.

Lemma read_ext (d d' : list byte) (i : nat) :
  nth_error d i = nth_error d' i -> read d i = read d' i.
Proof. unfold read. intros ->. reflexivity. Qed.

(** X16. The alpha bytes of the image data play no part: two image datas of the same
    length that agree on the colour bytes give the same tensor. *)
Theorem preprocessCanvas_ignores_alpha (P P' : Platform) (c c' : Canvas) :
  getContext2d P = getContext2d P' ->
  length (render P c) = length (render P' c') ->
  (forall i, (i mod 4 <> 3)%nat ->
             nth_error (render P c) i = nth_error (render P' c') i) ->
  App.preprocessCanvas P c = App.preprocessCanvas P' c'.
Proof.
  intros Hctx Hlen Hrgb. unfold App.preprocessCanvas. rewrite <- Hctx.
  destruct (getContext2d P); [|reflexivity]. f_equal.
  apply nth_error_ext. intros j. rewrite !nth_error_convert, <- Hlen.
  destruct (Nat.ltb j 784); [|reflexivity].
  destruct (Nat.ltb j ((length (render P c) + 3) / 4)); [|reflexivity].
  do 2 f_equal. unfold App.pixel_value.
  assert (H0 : ((4 * j) mod 4 = 0)%nat)
    by (rewrite Nat.mul_comm; apply Nat.Div0.mod_mul).
  assert (H1 : ((4 * j + 1) mod 4 = 1)%nat)
    by (rewrite Nat.add_comm, Nat.mul_comm, Nat.Div0.mod_add; reflexivity).
  assert (H2 : ((4 * j + 2) mod 4 = 2)%nat)
    by (rewrite Nat.add_comm, Nat.mul_comm, Nat.Div0.mod_add; reflexivity).
  rewrite (read_ext _ _ (4 * j)) by (apply Hrgb; lia).
  rewrite (read_ext _ _ (4 * j + 1)) by (apply Hrgb; lia).
  rewrite (read_ext _ _ (4 * j + 2)) by (apply Hrgb; lia).
  reflexivity.
Qed.

(** *** Darker pixels, higher values *)

Lemma descending_nth (l : list float) (i j : nat) (d : float) :
  descending l = true -> (i <= j < length l)%nat ->
  (nth j l d <=? nth i l d)%float = true.
Proof.
  revert i j; induction l as [|x l IH]; intros i j Hd Hij; [simpl in Hij; lia|].
  cbn [descending] in Hd. apply andb_prop in Hd as [Hx Hl].
  destruct i as [|i].
  - rewrite forallb_forall in Hx. apply Hx. apply nth_In. lia.
  - destruct j as [|j]; [lia|]. simpl. apply IH; [exact Hl|simpl in Hij; lia].
Qed.

Lemma tensor_value_descending (s s' : Z) :
  (0 <= s <= s')%Z -> (s' < 766)%Z ->
  (tensor_value s' <=? tensor_value s)%float = true.
Proof.
  intros Hs Hs'.
  assert (H : descending (map tensor_value (zrange 766)) = true)
    by (vm_compute; reflexivity).
  pose proof (descending_nth _ (Z.to_nat s) (Z.to_nat s') nan H) as Hn.
  assert (Hnth : forall z, (0 <= z < 766)%Z ->
            nth (Z.to_nat z) (map tensor_value (zrange 766)) nan = tensor_value z).
  { intros z Hz. rewrite nth_indep with (d' := tensor_value 0)
      by (rewrite length_map; unfold zrange; rewrite length_map, length_seq; lia).
    change (tensor_value 0) with ((fun z => tensor_value z) 0%Z).
    rewrite map_nth. unfold zrange.
    change 0%Z with (Z.of_nat 0). rewrite map_nth, seq_nth by lia.
    f_equal. lia. }
  rewrite !Hnth in Hn by lia. apply Hn.
  unfold zrange. rewrite !length_map, length_seq. lia.
Qed.

Lemma pixel_value_channel_sum (d : list byte) (k : nat) :
  (4 * k + 3 < length d)%nat ->
  fround (App.pixel_value d (4 * k)) = tensor_value (channel_sum d k) /\
  (0 <= channel_sum d k < 766)%Z.
Proof.
  intros Hk. unfold App.pixel_value, channel_sum.
  assert (Hr : forall i, (i < length d)%nat -> read d i = of_byte (nth i d x00)).
  { intros i Hi. unfold read.
    rewrite (nth_error_nth' d x00 Hi). reflexivity. }
  rewrite !Hr by lia. rewrite of_byte_sum.
  pose proof (byte_val_range (nth (4 * k) d x00)).
  pose proof (byte_val_range (nth (4 * k + 1) d x00)).
  pose proof (byte_val_range (nth (4 * k + 2) d x00)).
  split; [reflexivity|lia].
Qed.

(** X17. The tensor value falls as the pixel gets lighter: a pixel whose colour bytes
    sum to no more than those of another has a value that is no lower, and equal
    sums give equal values (checked over all 766 sums in binary64 with the
    binary32 store). *)
Theorem darker_pixel_higher_value (P : Platform) (c c' : Canvas)
        (data data' : list float) (k k' : nat) :
  PlatformLaws P ->
  App.preprocessCanvas P c = Ok data ->
  App.preprocessCanvas P c' = Ok data' ->
  (k < 784)%nat -> (k' < 784)%nat ->
  (channel_sum (render P c) k <= channel_sum (render P c') k')%Z ->
  (nth k' data' nan <=? nth k data nan)%float = true /\
  (channel_sum (render P c) k = channel_sum (render P c') k' ->
   nth k' data' nan = nth k data nan).
Proof.
  intros HP Hd Hd' Hk Hk' Hsum. unfold App.preprocessCanvas in Hd, Hd'.
  destruct (getContext2d P); [|discriminate].
  assert (Hv : forall c0 j, (j < 784)%nat ->
            nth j (App.convert (render P c0)) nan
            = tensor_value (channel_sum (render P c0) j) /\
            (0 <= channel_sum (render P c0) j < 766)%Z).
  { intros c0 j Hj. pose proof (render_length P HP c0) as Hlen.
    destruct (pixel_value_channel_sum (render P c0) j) as [Hpv Hr];
      [simpl in Hlen; lia|].
    split; [|exact Hr]. apply nth_error_nth.
    rewrite nth_error_convert, Hlen.
    replace (j <? 784)%nat with true by (symmetry; apply Nat.ltb_lt; exact Hj).
    replace (j <? (28 * 28 * 4 + 3) / 4)%nat with true
      by (symmetry; apply Nat.ltb_lt; exact Hj).
    rewrite Hpv. reflexivity. }
  assert (data = App.convert (render P c)) by congruence.
  assert (data' = App.convert (render P c')) by congruence.
  subst data data'.
  destruct (Hv c k Hk) as [-> Hr]. destruct (Hv c' k' Hk') as [-> Hr'].
  split.
  - apply tensor_value_descending; lia.
  - intros ->. reflexivity.
Qed.

(** *** A cleared canvas *)

Lemma nearest_transparent : transparent_shows_white nearest.
Proof.
  intros c _ Hpx. unfold nearest; cbn [render].
  rewrite (map_ext (sample c) (fun _ => [xff; xff; xff; xff])).
  - rewrite <- (length_seq 0 (28 * 28)) at 2.
    induction (seq 0 (28 * 28)) as [|k l IH]; [reflexivity|].
    cbn [map concat length repeat]. rewrite IH. reflexivity.
  - intros k. unfold sample. rewrite Hpx.
    assert (H : forall i n, nth i (repeat x00 n) x00 = x00).
    { intros i n. revert i; induction n as [|n IH]; intros [|i]; simpl; auto. }
    rewrite H. reflexivity.
Qed.

(** X18. After a click on clear a non-empty canvas keeps its size, the predictions
    are empty, the drawing counts as neither modified nor saved, and, in a
    browser that shows the white fill through a transparent canvas,
    preprocessing the cleared canvas gives -1 in all 784 places. *)
Theorem cleared_canvas_tensor (P : Platform) (st : App.State) (canvas : Canvas) :
  transparent_shows_white P ->
  getContext2d P = true ->
  App.canvasRef st = Some canvas ->
  (0 < width canvas * height canvas)%nat ->
  let st' := exec App.clearCanvas st in
  exists blank,
    App.canvasRef st' = Some blank /\
    width blank = width canvas /\ height blank = height canvas /\
    App.preprocessCanvas P blank = Ok (repeat (-1)%float 784) /\
    App.predictions st' = [] /\
    App.canvasModified st' = false /\
    App.currentDrawingSaved st' = false.
Proof.
  intros HP Hctx Hc Hpos. cbv zeta.
  unfold exec, App.clearCanvas, bindM, get. rewrite Hc. cbn.
  exists (App.clearRect canvas). repeat split.
  unfold App.preprocessCanvas. rewrite Hctx.
  rewrite (HP (App.clearRect canvas)) by (try reflexivity; exact Hpos).
  rewrite convert_uniform. reflexivity.
Qed.

Import Events.

(** ** Drawing and the sequence of events *)

Section Drawing.
Context {A : Arith}.

Lemma run_app (E : Env) (U : Surface) (evs1 evs2 : list event) (pg : Page) :
  run E U (evs1 ++ evs2) pg = run E U evs2 (run E U evs1 pg).
Proof. unfold run. apply fold_left_app. Qed.

Lemma draw_step (E : Env) (U : Surface) (q : Point) (pg : Page) (canvas : Canvas) :
  context2d U = true ->
  App.canvasRef (app pg) = Some canvas ->
  isDrawing pg = true ->
  let pg' := exec (handle E U (MouseMove q)) pg in
  path pg' = path pg ++ [on_canvas U q] /\
  isDrawing pg' = true /\
  lineWidth pg' = 13%Z /\ lineCap pg' = "round"%string /\
  App.canvasRef (app pg') =
    Some (stroke U canvas (path pg ++ [on_canvas U q]) 13 "round") /\
  App.canvasModified (app pg') = true /\
  App.currentDrawingSaved (app pg') = App.currentDrawingSaved (app pg) /\
  App.predictions (app pg') = App.predictions (app pg) /\
  App.requests (app pg') = App.requests (app pg).
Proof.
  intros Hctx Hc Hd. destruct pg as [[c p s n m cm cs co rq] dr pa lw lc].
  simpl in Hc, Hd. subst c dr. run_handlers. rewrite Hctx. cbn.
  repeat split.
Qed.

Lemma drag_moves (E : Env) (U : Surface) (qs : list Point) (pg : Page)
      (canvas : Canvas) :
  context2d U = true ->
  App.canvasRef (app pg) = Some canvas ->
  isDrawing pg = true ->
  let pg' := run E U (map MouseMove qs) pg in
  path pg' = path pg ++ map (on_canvas U) qs /\
  isDrawing pg' = true /\
  App.canvasRef (app pg') =
    Some (drag_canvas U canvas (path pg) (map (on_canvas U) qs)) /\
  (qs <> [] -> App.canvasModified (app pg') = true /\
               lineWidth pg' = 13%Z /\ lineCap pg' = "round"%string) /\
  App.currentDrawingSaved (app pg') = App.currentDrawingSaved (app pg) /\
  App.predictions (app pg') = App.predictions (app pg) /\
  App.requests (app pg') = App.requests (app pg).
Proof.
  intros Hctx. revert pg canvas.
  induction qs as [|q qs IH]; intros pg canvas Hc Hd; cbv zeta.
  - cbn. rewrite app_nil_r.
    repeat split; try assumption; try reflexivity; congruence.
  - destruct (draw_step E U q pg canvas Hctx Hc Hd)
      as (Hp & Hdr & Hlw & Hlc & Hcv & Hcm & Hcs & Hpr & Hrq).
    change (run E U (map MouseMove (q :: qs)) pg)
      with (run E U (map MouseMove qs) (exec (handle E U (MouseMove q)) pg)).
    destruct (IH _ _ Hcv Hdr) as (Hp' & Hdr' & Hcv' & Hne' & Hcs' & Hpr' & Hrq').
    split; [rewrite Hp', Hp, <- app_assoc; reflexivity|].
    split; [exact Hdr'|].
    split; [rewrite Hcv', Hp; reflexivity|].
    split.
    + intros _. destruct qs as [|q' qs].
      * cbn. auto.
      * apply Hne'. discriminate.
    + split; [congruence|]. split; congruence.
Qed.

Lemma press_step (E : Env) (U : Surface) (p : Point) (pg : Page) (canvas : Canvas) :
  context2d U = true ->
  App.canvasRef (app pg) = Some canvas ->
  let pg' := exec (handle E U (MouseDown p)) pg in
  path pg' = [on_canvas U p] /\ isDrawing pg' = true /\ app pg' = app pg.
Proof.
  intros Hctx Hc. destruct pg as [[c pr s n m cm cs co rq] dr pa lw lc].
  simpl in Hc. subst c. run_handlers. rewrite Hctx. cbn. repeat split.
Qed.

(** X19. A press followed by moves draws one path through all the positions, relative
    to the canvas offset, stroking the path so far at each move with line width
    13 and round caps; any move marks the canvas as modified, a press alone
    changes nothing of the component state, and drawing sends no request and
    leaves the saved flag alone. *)
Theorem drag_strokes (E : Env) (U : Surface) (p : Point) (qs : list Point)
        (pg : Page) (canvas : Canvas) :
  context2d U = true ->
  App.canvasRef (app pg) = Some canvas ->
  let pg' := run E U (MouseDown p :: map MouseMove qs) pg in
  path pg' = on_canvas U p :: map (on_canvas U) qs /\
  isDrawing pg' = true /\
  App.canvasRef (app pg') =
    Some (drag_canvas U canvas [on_canvas U p] (map (on_canvas U) qs)) /\
  (qs <> [] -> App.canvasModified (app pg') = true /\
               lineWidth pg' = 13%Z /\ lineCap pg' = "round"%string) /\
  (qs = [] -> app pg' = app pg) /\
  App.currentDrawingSaved (app pg') = App.currentDrawingSaved (app pg) /\
  App.requests (app pg') = App.requests (app pg).
Proof.
  intros Hctx Hc. cbv zeta.
  destruct (press_step E U p pg canvas Hctx Hc) as (Hp & Hd & Ha).
  change (run E U (MouseDown p :: map MouseMove qs) pg)
    with (run E U (map MouseMove qs) (exec (handle E U (MouseDown p)) pg)).
  assert (Hc1 : App.canvasRef (app (exec (handle E U (MouseDown p)) pg)) = Some canvas)
    by (rewrite Ha; exact Hc).
  destruct (drag_moves E U qs _ canvas Hctx Hc1 Hd)
    as (Hp' & Hd' & Hcv' & Hne' & Hcs' & _ & Hrq').
  rewrite Hp in Hp', Hcv'. rewrite Ha in Hcs', Hrq'.
  repeat split; try assumption; try (apply Hne'; assumption).
  intros ->. cbn. exact Ha.
Qed.

(** X20. When the bounding rectangle of the canvas starts at its offset, the touch
    handlers do with the first touch exactly what the mouse handlers do with the
    pointer; further touches are ignored. *)
Theorem touch_as_mouse (U : Surface) (touch : Point) (others : list Point)
        (pg : Page) :
  rectLeft U = offsetLeft U -> rectTop U = offsetTop U ->
  handleTouchStart U (touch :: others) pg = startDrawing U touch pg /\
  handleTouchMove U (touch :: others) pg = draw U touch pg.
Proof.
  intros Hl Ht.
  destruct pg as [[[c|] pr s n m cm cs co rq] [|] pa lw lc];
    run_handlers; destruct (context2d U); cbn; rewrite ?Hl, ?Ht; split; reflexivity.
Qed.

(** X21. While no press is under way, moving the pointer or a finger over the canvas,
    leaving it or releasing changes nothing at all, not even with an empty list
    of touches. *)
Theorem hovering_changes_nothing (E : Env) (U : Surface) (evs : list event)
        (pg : Page) :
  Forall passive evs ->
  isDrawing pg = false ->
  run E U evs pg = pg.
Proof.
  intros Hev Hd. induction Hev as [|ev evs Hp _ IH]; [reflexivity|].
  change (run E U (ev :: evs) pg) with (run E U evs (exec (handle E U ev) pg)).
  assert (H : exec (handle E U ev) pg = pg).
  { destruct pg as [ap dr pa lw lc]. simpl in Hd. subst dr.
    destruct ev; try destruct Hp; reflexivity. }
  rewrite H. exact IH.
Qed.
End Drawing.

(** *** Uploads along a session *)

Section Session.
Context {A : Arith}.

Lemma on_app_exec (T : Type) (h : M App.State T) (pg : Page) :
  app (exec (on_app h) pg) = exec h (app pg).
Proof. unfold exec, on_app. destruct (h (app pg)); reflexivity. Qed.

(** One event: the requests sent, and what remains to be sent. *)
Lemma handle_upload_budget (E : Env) (U : Surface) (ev : event) (pg : Page) :
  let pg' := exec (handle E U ev) pg in
  (length (App.requests (app pg')) + unsent pg'
   <= length (App.requests (app pg)) + unsent pg + count_clear [ev])%nat /\
  (length (App.requests (app pg)) <= length (App.requests (app pg')))%nat /\
  App.session (app pg') = App.session (app pg).
Proof.
  cbv zeta. unfold unsent.
  destruct ev; cbn [handle count_clear filter length];
    try (destruct pg as [[[c|] pr s n m cm [|] co rq] [|] pa lw lc];
         run_handlers; try destruct (context2d U); cbn;
         try destruct touches; cbn; repeat split; lia).
  - rewrite on_app_exec.
    unfold exec.
    destruct (predict_cases E (app pg)) as [H|[[r H]|[error H]]]; rewrite H;
      cbn; repeat split; lia.
  - destruct pg as [[[c|] pr s n m [|] [|] co rq] dr pa lw lc];
      unfold exec, on_app; cbn [app]; run_saveImage;
      try (repeat split; lia).
    destruct (put E _); cbn; rewrite length_app; cbn; repeat split; lia.
Qed.

(** X22. In a session in which every handler has run to its end before the next event
    (each upload is answered before the user acts again), the page sends at most
    one request per click on clear, plus one if the drawing at the start did not
    count as saved; no event changes the session. Saves that overlap are outside
    this bound. *)
Theorem uploads_bounded_by_clears (E : Env) (U : Surface) (evs : list event)
        (pg : Page) :
  let pg' := run E U evs pg in
  (length (App.requests (app pg'))
   <= length (App.requests (app pg)) + unsent pg + count_clear evs)%nat /\
  App.session (app pg') = App.session (app pg).
Proof.
  cbv zeta. revert pg. induction evs as [|ev evs IH]; intros pg.
  - cbn. split; [lia|reflexivity].
  - change (run E U (ev :: evs) pg) with (run E U evs (exec (handle E U ev) pg)).
    destruct (handle_upload_budget E U ev pg) as (H1 & _ & Hs).
    destruct (IH (exec (handle E U ev) pg)) as (H2 & Hs2).
    split; [|congruence].
    assert (Hc : count_clear (ev :: evs) = (count_clear [ev] + count_clear evs)%nat).
    { unfold count_clear. cbn [filter]. destruct ev; reflexivity. }
    rewrite Hc. lia.
Qed.
(** One event and the counters of the page. *)
Lemma handle_upload_count (E : Env) (U : Surface) (ev : event) (pg : Page) :
  let pg' := exec (handle E U ev) pg in
  (App.uploadCount (app pg) <= App.uploadCount (app pg'))%nat /\
  (App.uploadCount (app pg') + length (App.requests (app pg))
   <= App.uploadCount (app pg) + length (App.requests (app pg')))%nat.
Proof.
  cbv zeta.
  destruct ev; cbn [handle];
    try (destruct pg as [[[c|] pr s n m cm [|] co rq] [|] pa lw lc];
         run_handlers; try destruct (context2d U); cbn;
         try destruct touches; cbn; repeat split; lia).
  - rewrite on_app_exec. unfold exec.
    destruct (predict_cases E (app pg)) as [H|[[r H]|[error H]]]; rewrite H;
      cbn; repeat split; lia.
  - destruct pg as [[[c|] pr s n m [|] [|] co rq] dr pa lw lc];
      unfold exec, on_app; cbn [app]; run_saveImage;
      try (repeat split; lia).
    destruct (put E _); cbn; rewrite length_app; cbn; repeat split; lia.
Qed.

(** X24. Along every sequence of events the upload counter never decreases and never
    grows by more than the number of requests sent. *)
Theorem upload_count_bounded (E : Env) (U : Surface) (evs : list event)
        (pg : Page) :
  let pg' := run E U evs pg in
  (App.uploadCount (app pg) <= App.uploadCount (app pg'))%nat /\
  (App.uploadCount (app pg') + length (App.requests (app pg))
   <= App.uploadCount (app pg) + length (App.requests (app pg')))%nat.
Proof.
  cbv zeta. revert pg. induction evs as [|ev evs IH]; intros pg.
  - cbn. split; lia.
  - change (run E U (ev :: evs) pg) with (run E U evs (exec (handle E U ev) pg)).
    destruct (handle_upload_count E U ev pg) as (H1 & H2).
    destruct (IH (exec (handle E U ev) pg)) as (H3 & H4).
    split; lia.
Qed.

(** One event and the predictions on the page. *)
Lemma handle_predictions (E : Env) (U : Surface) (ev : event) (pg : Page) :
  let pg' := exec (handle E U ev) pg in
  (renews ev = false -> App.predictions (app pg') = App.predictions (app pg)) /\
  (App.session (app pg) = None ->
   App.session (app pg') = None /\
   (App.predictions (app pg') = App.predictions (app pg) \/
    App.predictions (app pg') = [])).
Proof.
  cbv zeta.
  destruct ev; cbn [handle renews];
    try (destruct pg as [[[c|] pr s n m cm [|] co rq] [|] pa lw lc];
         run_handlers; try destruct (context2d U); cbn;
         try destruct touches; cbn; repeat split; auto; discriminate).
  - split; [discriminate|]. intros Hs. rewrite on_app_exec.
    unfold exec, App.predict, bindM, get. rewrite Hs. cbn. auto.
  - destruct pg as [[[c|] pr s n m [|] [|] co rq] dr pa lw lc];
      unfold exec, on_app; cbn [app]; run_saveImage;
      try (repeat split; auto).
    all: destruct (put E _); cbn; auto.
Qed.

(** X25. Drawing and saving leave the predictions as they are: only a click on
    predict or on clear changes them, so the page goes on showing the
    predictions of the earlier drawing. *)
Theorem predictions_renewed_on_request (E : Env) (U : Surface)
        (evs : list event) (pg : Page) :
  forallb (fun ev => negb (renews ev)) evs = true ->
  App.predictions (app (run E U evs pg)) = App.predictions (app pg).
Proof.
  revert pg. induction evs as [|ev evs IH]; intros pg Hevs; [reflexivity|].
  change (run E U (ev :: evs) pg) with (run E U evs (exec (handle E U ev) pg)).
  cbn [forallb] in Hevs. apply andb_prop in Hevs. destruct Hevs as [Hev Hevs].
  rewrite (IH _ Hevs).
  apply (handle_predictions E U ev pg). now apply negb_true_iff.
Qed.

(** X26. While no model is loaded, no sequence of events brings predictions: the
    session stays unset, the predictions stay empty and the page shows none. *)
Theorem no_model_no_predictions (E : Env) (U : Surface) (evs : list event)
        (pg : Page) :
  App.session (app pg) = None ->
  App.predictions (app pg) = [] ->
  let pg' := run E U evs pg in
  App.session (app pg') = None /\
  App.predictions (app pg') = [] /\
  shown_predictions (render_app (app pg')) = [].
Proof.
  cbv zeta. revert pg. induction evs as [|ev evs IH]; intros pg Hs Hp.
  - cbn. repeat split; try assumption. unfold render_app. cbn. now rewrite Hp.
  - change (run E U (ev :: evs) pg) with (run E U evs (exec (handle E U ev) pg)).
    destruct (handle_predictions E U ev pg) as (_ & H).
    destruct (H Hs) as (Hs' & Hp').
    apply IH; [assumption|]. destruct Hp' as [Hp'|Hp']; congruence.
Qed.
End Session.

(** X27. After a click on clear, the page refuses to save the blank canvas ('Please
    draw a digit before saving', no request), while the variant without the
    guards uploads it. *)
Theorem blank_canvas_save (A : Arith) (E : Env) (U : Surface) (pg : Page)
        (su : Unguarded.State) (canvas : Canvas) :
  context2d U = true ->
  App.canvasRef (app pg) = Some canvas ->
  Unguarded.canvasRef su = Some canvas ->
  let pg' := run E U [ClickClear; ClickSave] pg in
  let su' := exec (Unguarded.saveImage E)
                  (exec (UnguardedEvents.clearCanvas U) su) in
  App.requests (app pg') = App.requests (app pg) /\
  App.saveMessage (app pg') = "Please draw a digit before saving"%string /\
  App.canvasRef (app pg') = Some (App.clearRect canvas) /\
  Unguarded.canvasRef su' = Some (App.clearRect canvas) /\
  Unguarded.requests su' =
    Unguarded.requests su ++ [upload_request E (App.clearRect canvas)].
Proof.
  intros Hctx Hcan Hcan'. cbv zeta.
  destruct pg as [[c pr s n m cm sv co rq] dr pa lw lc].
  destruct su as [c' pr' s' co' rq'].
  cbn [app App.canvasRef Unguarded.canvasRef] in Hcan, Hcan'. subst c c'.
  unfold run, fold_left, UnguardedEvents.clearCanvas, UnguardedEvents.setCanvas,
    Unguarded.setPredictions.
  run_handlers. rewrite Hctx. cbn. run_saveImage. run_variant_saveImage.
  destruct (put E _); cbn; repeat split; reflexivity.
Qed.

(** ** The further properties at sample inputs *)

Lemma saveImage_blocked_witness :
  App.canvasRef loading = Some white_canvas /\
  (App.canvasModified loading = false \/ App.currentDrawingSaved loading = true) /\
  App.saveMessage (exec (App.saveImage working_network) loading)
    = "Please draw a digit before saving"%string /\
  App.requests (exec (App.saveImage working_network) loading) = [].
Proof.
  split; [reflexivity|]. split; [left; reflexivity|].
  destruct (saveImage_blocked working_network loading white_canvas eq_refl
              (or_introl eq_refl)) as (H & Hrq & _).
  split; [rewrite H; reflexivity|exact Hrq].
Defined.

Lemma saveImage_uploads_witness :
  App.canvasRef (drawn rejects) = Some white_canvas /\
  App.canvasModified (drawn rejects) = true /\
  App.currentDrawingSaved (drawn rejects) = false /\
  put working_network (upload_request working_network white_canvas)
    = Ok "https://github.com/justadude12/mnist-images/blob/main/sample.png"%string /\
  let st' := exec (App.saveImage working_network) (drawn rejects) in
  App.requests st' = [upload_request working_network white_canvas] /\
  App.uploadCount st' = 1%nat /\
  App.saveMessage st' = "Successfully uploaded image 1!"%string /\
  App.currentDrawingSaved st' = true.
Proof.
  repeat (split; [reflexivity|]).
  destruct (saveImage_uploads working_network (drawn rejects) white_canvas _
              eq_refl eq_refl eq_refl eq_refl) as (H1 & H2 & H3 & H4 & _).
  repeat split; assumption.
Defined.

Lemma saveImage_content_witness :
  App.canvasRef (drawn rejects) = Some white_canvas /\
  App.canvasModified (drawn rejects) = true /\
  App.currentDrawingSaved (drawn rejects) = false /\
  toDataURL failing_network white_canvas
    = ("data:image/png;base64" ++ "," ++ "iVBORw0KGgo=")%string /\
  comma_free "data:image/png;base64" /\ comma_free "iVBORw0KGgo=" /\
  exists req,
    App.requests (exec (App.saveImage failing_network) (drawn rejects)) = [req] /\
    content req = Some "iVBORw0KGgo="%string /\
    url req = "https://api.github.com/repos/justadude12/mnist-images/contents/digit_9_1700000000000.png"%string.
Proof.
  assert (H1 : comma_free "data:image/png;base64")
    by (simpl; repeat split; discriminate).
  assert (H2 : comma_free "iVBORw0KGgo=")
    by (simpl; repeat split; discriminate).
  repeat (split; [reflexivity|]). split; [exact H1|]. split; [exact H2|].
  destruct (saveImage_content failing_network (drawn rejects) white_canvas
              "data:image/png;base64" "iVBORw0KGgo="
              eq_refl eq_refl eq_refl eq_refl H1 H2) as (req & Hr & Hc & Hu & _).
  exists req. repeat split; assumption.
Defined.

Lemma variant_saveImage_always_uploads_witness :
  Unguarded.canvasRef (variant_drawn rejects) = Some white_canvas /\
  let st1 := exec (Unguarded.saveImage failing_network) (variant_drawn rejects) in
  let st2 := exec (Unguarded.saveImage a_second_later) st1 in
  Unguarded.requests st1 = [upload_request failing_network white_canvas] /\
  Unguarded.view st1 = [] /\
  Unguarded.requests st2 =
    [upload_request failing_network white_canvas;
     upload_request a_second_later white_canvas] /\
  map url (Unguarded.requests st2) =
    ["https://api.github.com/repos/justadude12/mnist-images/contents/digit_9_1700000000000.png";
     "https://api.github.com/repos/justadude12/mnist-images/contents/digit_9_1700000001000.png"]%string.
Proof.
  split; [reflexivity|].
  destruct (variant_saveImage_always_uploads failing_network a_second_later
              (variant_drawn rejects) white_canvas eq_refl)
    as (H1 & _ & H3 & H4 & _).
  cbv zeta. rewrite H4.
  repeat split; assumption.
Defined.

Lemma overlapping_saves_witness :
  App.canvasRef (drawn rejects) = Some white_canvas /\
  App.canvasModified (drawn rejects) = true /\
  App.currentDrawingSaved (drawn rejects) = false /\
  exists p1 p2 st1 st2,
    Pending.click working_network (drawn rejects) = (Ok (Some p1), st1) /\
    Pending.click a_second_later st1 = (Ok (Some p2), st2) /\
    App.requests st2 =
      [upload_request working_network white_canvas;
       upload_request a_second_later white_canvas] /\
    let st3 := exec (Pending.settle p1 (Ok "sample.png"%string)) st2 in
    let st4 := exec (Pending.settle p2 (Ok "later.png"%string)) st3 in
    App.uploadCount st4 = 2%nat /\
    App.saveMessage st3 = "Successfully uploaded image 1!"%string /\
    App.saveMessage st4 = "Successfully uploaded image 1!"%string.
Proof.
  repeat (split; [reflexivity|]).
  destruct (overlapping_saves working_network a_second_later (drawn rejects)
              white_canvas "sample.png" "later.png" eq_refl eq_refl eq_refl)
    as (p1 & p2 & st1 & st2 & H1 & H2 & H3 & _ & H5 & H6 & H7 & _).
  exists p1, p2, st1, st2. cbv zeta in *.
  repeat split; try assumption. rewrite H7. exact H6.
Defined.

Lemma variants_same_upload_witness :
  App.canvasRef (drawn rejects) = Some white_canvas /\
  App.canvasModified (drawn rejects) = true /\
  App.currentDrawingSaved (drawn rejects) = false /\
  Unguarded.canvasRef (variant_drawn rejects) = Some white_canvas /\
  exists req entry,
    App.requests (exec (App.saveImage working_network) (drawn rejects)) = [req] /\
    Unguarded.requests
      (exec (Unguarded.saveImage working_network) (variant_drawn rejects)) = [req] /\
    App.console (exec (App.saveImage working_network) (drawn rejects)) = [entry] /\
    Unguarded.console
      (exec (Unguarded.saveImage working_network) (variant_drawn rejects)) = [entry].
Proof.
  repeat (split; [reflexivity|]).
  exact (variants_same_upload working_network (drawn rejects)
           (variant_drawn rejects) white_canvas eq_refl eq_refl eq_refl eq_refl).
Defined.

Lemma preprocessed_tensor_shape_witness :
  getContext2d nearest = true /\
  exists data tensor,
    App.preprocessCanvas nearest white_canvas = Ok data /\
    new_Tensor data [1; 1; 28; 28]%nat = Ok tensor /\
    tensor_data tensor = data /\
    dims tensor = [1; 1; 28; 28]%nat /\
    length (tensor_data tensor) = fold_right Nat.mul 1%nat (dims tensor).
Proof.
  split; [reflexivity|].
  exact (preprocessed_tensor_shape nearest white_canvas eq_refl).
Defined.

Lemma predict_without_context_witness :
  App.session (drawn rejects) = Some rejects /\
  App.canvasRef (drawn rejects) = Some white_canvas /\
  getContext2d (platform without_context) = false /\
  exec (App.predict (A := exact) without_context) (drawn rejects) =
  exec (App.console_write
          (ConsoleError "Prediction error:" (Error "Could not get canvas context")))
       (drawn rejects).
Proof.
  repeat (split; [reflexivity|]).
  exact (predict_without_context (A := exact) without_context (drawn rejects)
           rejects white_canvas eq_refl eq_refl eq_refl).
Defined.

Lemma loadModel_failure_witness :
  App.session loading = None /\
  let e := Rejected "failed to load model.onnx" in
  let st1 := exec (Events.loadModel (Throw e)) loading in
  fst (Events.loadModel (Throw e) loading) = Throw e /\
  App.console st1 = [ConsoleError "Failed to load model:" e] /\
  App.session st1 = None /\
  exec (App.predict (A := exact) working_network) st1 = st1.
Proof.
  split; [reflexivity|].
  exact (loadModel_failure exact working_network loading
           (Rejected "failed to load model.onnx") eq_refl).
Defined.

Lemma softmax_highest_score_witness :
  ArithLaws exact /\
  ten_scores <> [] /\
  exists ps top,
    App.softmax (A := exact) ten_scores = Ok ps /\
    length ps = 10%nat /\
    Forall (fun p => p <= top) ps /\
    nth_error ps 9 = Some top.
Proof.
  split; [exact exact_laws|]. split; [discriminate|].
  destruct (softmax_highest_score (A := exact) (HA := exact_laws) ten_scores)
    as (ps & top & H1 & H2 & _ & H4 & H5); [discriminate|].
  exists ps, top. repeat split; try assumption.
  apply (H5 9%nat 10); [reflexivity|].
  intros x Hx. simpl in Hx.
  repeat (destruct Hx as [Hx|Hx]; [subst x; lra|]). contradiction.
Defined.

Lemma softmax_order_preserving_witness :
  ArithLaws exact /\
  (forall x y, x <= y -> Mexp (Arith := exact) x <= Mexp (Arith := exact) y) /\
  ten_scores <> [] /\
  exists ps,
    App.softmax (A := exact) ten_scores = Ok ps /\
    exists p q, nth_error ps 2 = Some p /\ nth_error ps 7 = Some q /\ p <= q.
Proof.
  assert (Hexp : forall x y, x <= y ->
                   Mexp (Arith := exact) x <= Mexp (Arith := exact) y).
  { intros x y [H|H]; simpl; [left; now apply exp_increasing|subst; lra]. }
  split; [exact exact_laws|]. split; [exact Hexp|]. split; [discriminate|].
  destruct (softmax_order_preserving (A := exact) (HA := exact_laws) ten_scores Hexp)
    as (ps & H1 & H2); [discriminate|].
  exists ps. split; [exact H1|].
  apply (H2 2%nat 7%nat 3 8); [reflexivity|reflexivity|lra].
Defined.

Lemma render_top_three_witness :
  ArithLaws exact /\
  inference failing_network (drawn (returns ten_scores)) (Ok ten_scores) /\
  (3 <= length ten_scores)%nat /\
  let st' := exec (App.predict (A := exact) failing_network)
                  (drawn (returns ten_scores)) in
  let shown := Events.shown_predictions (Events.render_app st') in
  shown = firstn 3 (App.predictions st') /\
  length shown = 3%nat /\
  StronglySorted ranked_before shown.
Proof.
  assert (Hinf : inference failing_network (drawn (returns ten_scores)) (Ok ten_scores))
    by (apply (drawn_inference failing_network (returns ten_scores)); reflexivity).
  assert (Hlen : (3 <= length ten_scores)%nat) by (simpl; lia).
  split; [exact exact_laws|]. split; [exact Hinf|]. split; [exact Hlen|].
  destruct (render_top_three exact exact_laws failing_network
              (drawn (returns ten_scores)) ten_scores Hinf Hlen)
    as (H1 & H2 & H3 & _).
  repeat split; assumption.
Defined.

Lemma render_save_message_witness :
  App.canvasRef (drawn rejects) = Some white_canvas /\
  exists c msg,
    Events.shown_message
      (Events.render_app (exec (App.saveImage failing_network) (drawn rejects)))
      = Some (c, msg) /\
    (c = Events.error_colour <->
     App.canvasModified (drawn rejects) = true /\
     App.currentDrawingSaved (drawn rejects) = false /\
     exists error,
       put failing_network (upload_request failing_network white_canvas)
       = Throw error).
Proof.
  split; [reflexivity|].
  exact (render_save_message failing_network (drawn rejects) white_canvas eq_refl).
Defined.

Lemma preprocessCanvas_ignores_alpha_witness :
  let seen := shows [x00; x00; x00; xff] in
  let faded := shows [x00; x00; x00; x00] in
  getContext2d seen = getContext2d faded /\
  length (render seen white_canvas) = length (render faded black_canvas) /\
  (forall i, (i mod 4 <> 3)%nat ->
             nth_error (render seen white_canvas) i
             = nth_error (render faded black_canvas) i) /\
  App.preprocessCanvas seen white_canvas = App.preprocessCanvas faded black_canvas.
Proof.
  cbv zeta.
  assert (H : forall i, (i mod 4 <> 3)%nat ->
            nth_error (concat (repeat [x00; x00; x00; xff] 784)) i
            = nth_error (concat (repeat [x00; x00; x00; x00] 784)) i).
  { intros i Hi.
    destruct (Nat.lt_ge_cases i (4 * 784)) as [Hlt|Hge].
    - pose proof (Nat.div_mod_eq i 4) as Hdm.
      pose proof (Nat.mod_upper_bound i 4 ltac:(lia)) as Hm.
      assert (Hk : (i / 4 < 784)%nat) by (apply Nat.Div0.div_lt_upper_bound; lia).
      rewrite Hdm.
      change 4%nat with (length [x00; x00; x00; xff]) at 1.
      rewrite nth_error_concat_repeat by (cbn [length]; lia).
      change (length [x00; x00; x00; xff]) with (length [x00; x00; x00; x00]).
      rewrite nth_error_concat_repeat by (cbn [length]; lia).
      destruct (i mod 4)%nat as [|[|[|[|k]]]]; try reflexivity; lia.
    - assert (Hs : length (concat (repeat [x00; x00; x00; xff] 784)) = 3136%nat)
        by reflexivity.
      assert (Hf : length (concat (repeat [x00; x00; x00; x00] 784)) = 3136%nat)
        by reflexivity.
      transitivity (@None byte); [|symmetry]; apply nth_error_None; lia. }
  split; [reflexivity|]. split; [reflexivity|]. split; [exact H|].
  exact (preprocessCanvas_ignores_alpha (shows [x00; x00; x00; xff])
           (shows [x00; x00; x00; x00]) white_canvas black_canvas
           eq_refl eq_refl H).
Defined.

Lemma darker_pixel_higher_value_witness :
  let data := App.convert (render nearest black_canvas) in
  let data' := App.convert (render nearest white_canvas) in
  PlatformLaws nearest /\
  App.preprocessCanvas nearest black_canvas = Ok data /\
  App.preprocessCanvas nearest white_canvas = Ok data' /\
  (5 < 784)%nat /\ (700 < 784)%nat /\
  (channel_sum (render nearest black_canvas) 5
   <= channel_sum (render nearest white_canvas) 700)%Z /\
  (nth 700 data' nan <=? nth 5 data nan)%float = true.
Proof.
  cbv zeta.
  assert (Hs : (channel_sum (render nearest black_canvas) 5
                <= channel_sum (render nearest white_canvas) 700)%Z)
    by (vm_compute; discriminate).
  split; [exact nearest_laws|]. split; [reflexivity|]. split; [reflexivity|].
  split; [lia|]. split; [lia|]. split; [exact Hs|].
  exact (proj1 (darker_pixel_higher_value nearest black_canvas white_canvas
                  _ _ 5 700 nearest_laws eq_refl eq_refl
                  ltac:(lia) ltac:(lia) Hs)).
Defined.

Lemma cleared_canvas_tensor_witness :
  transparent_shows_white nearest /\
  getContext2d nearest = true /\
  App.canvasRef (drawn rejects) = Some white_canvas /\
  (0 < width white_canvas * height white_canvas)%nat /\
  let st' := exec App.clearCanvas (drawn rejects) in
  exists blank,
    App.canvasRef st' = Some blank /\
    width blank = width white_canvas /\ height blank = height white_canvas /\
    App.preprocessCanvas nearest blank = Ok (repeat (-1)%float 784) /\
    App.predictions st' = [] /\
    App.canvasModified st' = false /\
    App.currentDrawingSaved st' = false.
Proof.
  split; [exact nearest_transparent|]. split; [reflexivity|].
  split; [reflexivity|]. split; [simpl; lia|].
  apply (cleared_canvas_tensor nearest (drawn rejects) white_canvas
           nearest_transparent eq_refl eq_refl).
  simpl; lia.
Defined.

Lemma drag_strokes_witness :
  let pg := page_of (drawn rejects) in
  let pg' := Events.run (A := exact) failing_network board
               [Events.MouseDown (point 10 20); Events.MouseMove (point 11 22);
                Events.MouseMove (point 12 24)] pg in
  Events.context2d board = true /\
  App.canvasRef (Events.app pg) = Some white_canvas /\
  Events.path pg' =
    [on_canvas (A := exact) board (point 10 20);
     on_canvas (A := exact) board (point 11 22);
     on_canvas (A := exact) board (point 12 24)] /\
  Events.isDrawing pg' = true /\
  App.requests (Events.app pg') = [].
Proof.
  cbv zeta. split; [reflexivity|]. split; [reflexivity|].
  destruct (drag_strokes (A := exact) failing_network board (point 10 20)
              [point 11 22; point 12 24] (page_of (drawn rejects)) white_canvas
              eq_refl eq_refl) as (H1 & H2 & _ & _ & _ & _ & H7).
  repeat split; assumption.
Defined.

Lemma touch_as_mouse_witness :
  Events.rectLeft board = Events.offsetLeft board /\
  Events.rectTop board = Events.offsetTop board /\
  Events.handleTouchStart (A := exact) board [point 10 20; point 50 60]
    (page_of (drawn rejects))
  = Events.startDrawing (A := exact) board (point 10 20) (page_of (drawn rejects)) /\
  Events.handleTouchMove (A := exact) board [point 10 20; point 50 60]
    (page_of (drawn rejects))
  = Events.draw (A := exact) board (point 10 20) (page_of (drawn rejects)).
Proof.
  split; [reflexivity|]. split; [reflexivity|].
  exact (touch_as_mouse (A := exact) board (point 10 20) [point 50 60]
           (page_of (drawn rejects)) eq_refl eq_refl).
Defined.

Lemma hovering_changes_nothing_witness :
  let evs := [Events.MouseMove (point 10 20); Events.MouseOut;
              Events.TouchMove []; Events.MouseUp] in
  Forall passive evs /\
  Events.isDrawing (page_of (drawn rejects)) = false /\
  Events.run (A := exact) failing_network board evs (page_of (drawn rejects))
  = page_of (drawn rejects).
Proof.
  cbv zeta.
  assert (H : Forall passive [Events.MouseMove (point 10 20); Events.MouseOut;
                               Events.TouchMove []; Events.MouseUp])
    by (repeat constructor).
  split; [exact H|]. split; [reflexivity|].
  exact (hovering_changes_nothing (A := exact) failing_network board _
           (page_of (drawn rejects)) H eq_refl).
Defined.


Lemma predictions_renewed_on_request_witness :
  let evs := [Events.MouseDown (point 10 20); Events.MouseMove (point 11 22);
              Events.MouseUp; Events.ClickSave] in
  forallb (fun ev => negb (renews ev)) evs = true /\
  App.predictions
    (Events.app (Events.run (A := exact) working_network board evs
                   (page_of (drawn rejects))))
  = App.predictions (Events.app (page_of (drawn rejects))).
Proof.
  cbv zeta. split; [reflexivity|].
  exact (predictions_renewed_on_request (A := exact) working_network board
           [Events.MouseDown (point 10 20); Events.MouseMove (point 11 22);
            Events.MouseUp; Events.ClickSave]
           (page_of (drawn rejects)) eq_refl).
Defined.

Lemma no_model_no_predictions_witness :
  let evs := [Events.MouseDown (point 10 20); Events.MouseMove (point 11 22);
              Events.MouseUp; Events.ClickPredict] in
  let pg' := Events.run (A := exact) working_network board evs (page_of loading) in
  App.session (Events.app (page_of loading)) = None /\
  App.predictions (Events.app (page_of loading)) = [] /\
  App.session (Events.app pg') = None /\
  App.predictions (Events.app pg') = [] /\
  Events.shown_predictions (Events.render_app (Events.app pg')) = [].
Proof.
  cbv zeta. split; [reflexivity|]. split; [reflexivity|].
  exact (no_model_no_predictions (A := exact) working_network board
           [Events.MouseDown (point 10 20); Events.MouseMove (point 11 22);
            Events.MouseUp; Events.ClickPredict]
           (page_of loading) eq_refl eq_refl).
Defined.

Lemma blank_canvas_save_witness :
  let pg := page_of (drawn rejects) in
  let su := variant_drawn rejects in
  let pg' := Events.run (A := exact) working_network board
               [Events.ClickClear; Events.ClickSave] pg in
  let su' := exec (Unguarded.saveImage working_network)
                  (exec (UnguardedEvents.clearCanvas board) su) in
  Events.context2d board = true /\
  App.canvasRef (Events.app pg) = Some white_canvas /\
  Unguarded.canvasRef su = Some white_canvas /\
  App.requests (Events.app pg') = [] /\
  App.saveMessage (Events.app pg') = "Please draw a digit before saving"%string /\
  Unguarded.requests su' =
    [upload_request working_network (App.clearRect white_canvas)].
Proof.
  cbv zeta. repeat (split; [reflexivity|]).
  destruct (blank_canvas_save exact working_network board (page_of (drawn rejects))
              (variant_drawn rejects) white_canvas eq_refl eq_refl eq_refl)
    as (H1 & H2 & _ & _ & H5).
  repeat split; assumption.
Defined.
